(** * terminalapp.utils.ui: the spinner and the progress scope

    A shallow embedding of [Spinner], [show_progress] and [UI.progress] of
    [src/terminalapp/utils/ui.py], and the properties of the progress
    indicator that follow from it.

    - A Python [str] is its sequence of Unicode code points ([pystr]), so
      that [len] counts what Python counts.
    - The standard output stream is the chronological list of calls made on
      it ([event]), each tagged with the execution unit that made it.
    - The animation thread is a program counter over the lines of
      [Spinner._animate]; the foreground lets it advance between its own
      operations ([elapse]) and inside [thread.join()] ([join]). *)

From Stdlib Require Import Ascii String.
From Stdlib Require Import List NArith Arith Bool Lia.
Import ListNotations.

Set Implicit Arguments.

(** ** Python strings *)

Module PyStr.

Definition pystr := list N.

(** An ASCII literal, code point by code point. *)
Fixpoint py (s : string) : pystr :=
  match s with
  | EmptyString => []
  | String c s' => N_of_ascii c :: py s'
  end.

(** [bool(s)]: a string is truthy when it is not empty. *)
Definition truthy (s : pystr) : bool :=
  match s with
  | [] => false
  | _ :: _ => true
  end.

(** [a or b] on strings. *)
Definition py_or (a b : pystr) : pystr := if truthy a then a else b.

(** [s.startswith(p)]. *)
Fixpoint startswith (p s : pystr) : bool :=
  match p, s with
  | [], _ => true
  | _ :: _, [] => false
  | a :: p', b :: s' => N.eqb a b && startswith p' s'
  end.

(** [p in s]. *)
Fixpoint contains (p s : pystr) : bool :=
  startswith p s ||
  match s with
  | [] => false
  | _ :: s' => contains p s'
  end.

(** The scan of [s.replace(old, new)] for a non-empty [old]: left to right,
    an occurrence of [old] is replaced by [new] and the scan resumes after
    it; [skip] counts the characters of a replaced occurrence still to be
    passed over. *)
Fixpoint replace_scan (skip : nat) (old new s : pystr) : pystr :=
  match s with
  | [] => []
  | c :: s' =>
      match skip with
      | S k => replace_scan k old new s'
      | O =>
          if startswith old s
          then new ++ replace_scan (length old - 1) old new s'
          else c :: replace_scan 0 old new s'
      end
  end.

(** [s.replace(old, new)]; for the empty [old] Python puts [new] before
    every character and at the end. *)
Definition replace (old new s : pystr) : pystr :=
  match old with
  | [] => new ++ flat_map (fun c => c :: new) s
  | _ :: _ => replace_scan 0 old new s
  end.

(** [c * n] for a one-character string [c]. *)
Definition times (c : N) (n : nat) : pystr := repeat c n.

End PyStr.
Import PyStr.

(** ** class Colors *)

Module Colors.

Definition ESC : N := 27.

Definition BLUE : pystr := ESC :: py "[94m".
Definition CYAN : pystr := ESC :: py "[96m".
Definition GREEN : pystr := ESC :: py "[92m".
Definition YELLOW : pystr := ESC :: py "[93m".
Definition RED : pystr := ESC :: py "[91m".
Definition MAGENTA : pystr := ESC :: py "[95m".
Definition ENDC : pystr := ESC :: py "[0m".
Definition BOLD : pystr := ESC :: py "[1m".
Definition DIM : pystr := ESC :: py "[2m".
Definition WHITE : pystr := ESC :: py "[97m".
Definition LIGHT_BLUE : pystr := ESC :: py "[94m".

End Colors.

(** ** Glyphs *)

Definition CHECK : pystr := [10003%N].   (* U+2713, the success glyph *)
Definition CROSS : pystr := [10007%N].   (* U+2717, the failure glyph *)
Definition CR : N := 13.
Definition LF : N := 10.
Definition SPACE : N := 32.

(** ** More of Python's [str] *)

Module PyText.

(** [c.isspace()] for one character, which is also the whitespace of
    [str.split()] and [str.strip()] without argument. *)
Definition isspace (c : N) : bool :=
  ((9 <=? c) && (c <=? 13) || (28 <=? c) && (c <=? 32)
   || (c =? 133) || (c =? 160) || (c =? 5760)
   || (8192 <=? c) && (c <=? 8202)
   || (c =? 8232) || (c =? 8233) || (c =? 8239) || (c =? 8287)
   || (c =? 12288))%N.

(** A finished word, if there is one, goes in front of the words found
    after it. *)
Definition flush_word (cur : pystr) (rest : list pystr) : list pystr :=
  match cur with
  | [] => rest
  | _ :: _ => cur :: rest
  end.

(** The scan of [s.split()]: [cur] is the word being read. *)
Fixpoint split_scan (cur s : pystr) : list pystr :=
  match s with
  | [] => flush_word cur []
  | c :: r =>
      if isspace c then flush_word cur (split_scan [] r)
      else split_scan (cur ++ [c]) r
  end.

(** [s.split()]: the maximal runs of characters that are not whitespace. *)
Definition split (s : pystr) : list pystr := split_scan [] s.

(** The scan of [s.split(sep)] for a one-character [sep]: [cur] is the
    field being read. *)
Fixpoint split_on_scan (sep : N) (cur s : pystr) : list pystr :=
  match s with
  | [] => [cur]
  | c :: r =>
      if N.eqb c sep then cur :: split_on_scan sep [] r
      else split_on_scan sep (cur ++ [c]) r
  end.

(** [s.split(sep)] for a one-character [sep]. *)
Definition split_on (sep : N) (s : pystr) : list pystr :=
  split_on_scan sep [] s.

(** [s.lstrip()] *)
Fixpoint lstrip (s : pystr) : pystr :=
  match s with
  | [] => []
  | c :: r => if isspace c then lstrip r else s
  end.

(** [s.strip()] *)
Definition strip (s : pystr) : pystr := rev (lstrip (rev (lstrip s))).

(** [s.ljust(n)] *)
Definition ljust (n : nat) (s : pystr) : pystr :=
  s ++ repeat SPACE (n - length s).

(** [s[:n]] *)
Definition upto (n : nat) (s : pystr) : pystr := firstn n s.

(** The digits of [str(n)] for a natural number. *)
Fixpoint digits (d : Decimal.uint) : pystr :=
  match d with
  | Decimal.Nil => []
  | Decimal.D0 r => 48 :: digits r
  | Decimal.D1 r => 49 :: digits r
  | Decimal.D2 r => 50 :: digits r
  | Decimal.D3 r => 51 :: digits r
  | Decimal.D4 r => 52 :: digits r
  | Decimal.D5 r => 53 :: digits r
  | Decimal.D6 r => 54 :: digits r
  | Decimal.D7 r => 55 :: digits r
  | Decimal.D8 r => 56 :: digits r
  | Decimal.D9 r => 57 :: digits r
  end%N.

(** [str(n)] *)
Definition str_of_nat (n : nat) : pystr := digits (Nat.to_uint n).

End PyText.

(** ** The output stream *)

Inductive unit_id := Fg | Bg.

Inductive event :=
| Write (u : unit_id) (s : pystr)      (* sys.stdout.write(s) *)
| Flush (u : unit_id)                  (* sys.stdout.flush() *)
| Sleep (u : unit_id) (ms : N).        (* time.sleep(ms / 1000) *)

Definition by_unit (e : event) : unit_id :=
  match e with
  | Write u _ => u
  | Flush u => u
  | Sleep u _ => u
  end.

Definition is_bg (e : event) : bool :=
  match by_unit e with Bg => true | Fg => false end.

Definition is_fg (e : event) : bool :=
  match by_unit e with Fg => true | Bg => false end.

(** [print(s)] writes [s] and then the line end. *)
Definition print (u : unit_id) (s : pystr) : list event :=
  [Write u s; Write u [LF]].

(** The text the stream has received. *)
Fixpoint text_of (evs : list event) : pystr :=
  match evs with
  | [] => []
  | Write _ s :: r => s ++ text_of r
  | _ :: r => text_of r
  end.

(** The strings written by the animation thread, in order. *)
Fixpoint frames_of (evs : list event) : list pystr :=
  match evs with
  | [] => []
  | Write Bg s :: r => s :: frames_of r
  | _ :: r => frames_of r
  end.

(** ** class Spinner *)

Module Spinner.

(** Where the animation thread stands in [_animate]: before the loop test
    (line 77), before the f-string of line 80 is built, before that string
    is written, before the flush (81), the sleep (82), the increment (83),
    or after the loop. *)
Inductive pc :=
| AtTest
| AtFormat
| AtWrite (s : pystr)
| AtFlush
| AtSleep
| AtIncr
| Exited.

(** A [threading.Thread] running [_animate]: its local [idx] and its
    program counter. *)
Record Thread := { idx : nat; at_pc : pc }.

Record t := {
  message : pystr;
  color : pystr;
  running : bool;
  thread : option Thread
}.

(** A method invocation on the spinner, with its arguments. *)
Inductive call :=
| Start
| Stop (final_message symbol symbol_color : pystr)
| Update_message (m : pystr).

(** The state of one spinner and of the stream it writes to.  [calls] is
    the history of the invocations of its methods, oldest first; it is a
    ghost of the embedding (the class has no such attribute) and no
    definition reads it. *)
Record World := { spinner : t; stdout : list event; calls : list call }.

Definition FRAMES : list pystr :=
  [[10251]; [10265]; [10297]; [10296]; [10300];
   [10292]; [10278]; [10279]; [10247]; [10255]]%N.

(** The sleep of line 82, [time.sleep(0.08)], in milliseconds. *)
Definition TICK_MS : N := 80.

(** [Spinner.__init__] *)
Definition init (message color : pystr) : t :=
  {| message := message; color := color; running := false; thread := None |}.

Definition set_message (m : pystr) (s : t) : t :=
  {| message := m; color := color s; running := running s; thread := thread s |}.

Definition set_running (b : bool) (s : t) : t :=
  {| message := message s; color := color s; running := b; thread := thread s |}.

Definition set_thread (th : option Thread) (s : t) : t :=
  {| message := message s; color := color s; running := running s; thread := th |}.

Definition with_spinner (s : t) (w : World) : World :=
  {| spinner := s; stdout := stdout w; calls := calls w |}.

Definition emit (evs : list event) (w : World) : World :=
  {| spinner := spinner w; stdout := stdout w ++ evs; calls := calls w |}.

Definition invoked (c : call) (w : World) : World :=
  {| spinner := spinner w; stdout := stdout w; calls := calls w ++ [c] |}.

Definition goto (i : nat) (p : pc) (w : World) : World :=
  with_spinner (set_thread (Some {| idx := i; at_pc := p |}) (spinner w)) w.

(** [self.FRAMES[idx % len(self.FRAMES)]] *)
Definition frame (i : nat) : pystr :=
  nth (i mod length FRAMES) FRAMES [].
Arguments frame i : simpl never.

(** The f-string of line 80. *)
Definition frame_line (col : pystr) (i : nat) (msg : pystr) : pystr :=
  [CR] ++ col ++ frame i ++ Colors.ENDC ++ [SPACE] ++ msg.

(** One step of the thread running [Spinner._animate]. *)
Definition animate_step (w : World) : World :=
  let s := spinner w in
  match thread s with
  | None => w
  | Some th =>
      let i := idx th in
      match at_pc th with
      | AtTest => if running s then goto i AtFormat w else goto i Exited w
      | AtFormat => goto i (AtWrite (frame_line (color s) i (message s))) w
      | AtWrite line => goto i AtFlush (emit [Write Bg line] w)
      | AtFlush => goto i AtSleep (emit [Flush Bg] w)
      | AtSleep => goto i AtIncr (emit [Sleep Bg TICK_MS] w)
      | AtIncr => goto (i + 1) AtTest w
      | Exited => w
      end
  end.

(** The foreground is busy elsewhere while the thread makes [n] steps. *)
Fixpoint elapse (n : nat) (w : World) : World :=
  match n with
  | O => w
  | S k => elapse k (animate_step w)
  end.

Definition exited (th : Thread) : bool :=
  match at_pc th with
  | Exited => true
  | _ => false
  end.

(** [thread.join()]: the caller waits while the thread steps, and goes on
    once the thread has left [_animate].  [patience] bounds the steps the
    caller waits for; [None] is a caller still blocked. *)
Fixpoint join (patience : nat) (w : World) : option World :=
  match thread (spinner w) with
  | None => Some w
  | Some th =>
      if exited th then Some w
      else
        match patience with
        | O => None
        | S k => join k (animate_step w)
        end
  end.

(** [Spinner.start] *)
Definition start (w0 : World) : World :=
  let w := invoked Start w0 in
  if negb (running (spinner w))
  then goto 0 AtTest (with_spinner (set_running true (spinner w)) w)
  else w.

(** The line that clears the animation (line 114). *)
Definition clear_line (msg : pystr) : pystr :=
  [CR] ++ times SPACE (length msg + 10) ++ [CR].

(** The completion line (line 116), without its line end. *)
Definition final_line (symbol_color symbol final_message : pystr) : pystr :=
  symbol_color ++ symbol ++ Colors.ENDC ++ [SPACE] ++ final_message.

(** What [stop] writes once the thread is joined (lines 114-117). *)
Definition stop_output (msg final_message symbol symbol_color : pystr)
  : list event :=
  [Write Fg (clear_line msg)]
  ++ (if truthy final_message
      then print Fg (final_line symbol_color symbol final_message)
      else [])
  ++ [Flush Fg].

(** [Spinner.stop] *)
Definition stop (patience : nat) (final_message symbol symbol_color : pystr)
  (w0 : World) : option World :=
  let w := invoked (Stop final_message symbol symbol_color) w0 in
  if running (spinner w) then
    let w1 := with_spinner (set_running false (spinner w)) w in
    match (match thread (spinner w1) with
           | Some _ => join patience w1
           | None => Some w1
           end) with
    | None => None
    | Some w2 =>
        Some (emit (stop_output (message (spinner w2))
                                final_message symbol symbol_color) w2)
    end
  else Some w.

(** [Spinner.update_message] *)
Definition update_message (m : pystr) (w0 : World) : World :=
  let w := invoked (Update_message m) w0 in
  with_spinner (set_message m (spinner w)) w.

End Spinner.

(** ** Exceptions and enclosed work *)

(** A raised exception object: its identity, whether it is an instance of
    [Exception] (a [KeyboardInterrupt] or a [SystemExit] is not), and
    the text [str(e)] returns when it returns; whether it does is part of
    the work that raises it, see [describe] below. *)
Record exn := { exn_id : nat; is_Exception : bool; str : pystr }.

(** How a piece of code ends: with a value, or raising. *)
Inductive outcome (R : Type) :=
| Return (r : R)
| Raise (e : exn).
Arguments Return {R} r.
Arguments Raise {R} e.

(** What code running in the foreground does to the world of a spinner it
    holds no reference to: it takes time, during which the animation
    thread makes [n] steps, or it writes to the stream itself. *)
Inductive effect :=
| Elapse (n : nat)
| Emit (s : pystr).

(** What one call [func(args)] does. *)
Record behaviour (R : Type) := {
  effects : list effect;
  result : outcome R;
  str_raises : option exn
}.

(** A step of the block of a [with ui.progress(...) as spinner:], which
    also holds the spinner. *)
Inductive block_step :=
| Do (e : effect)
| Call_update_message (m : pystr).

Record block := {
  steps : list block_step;
  completion : outcome unit;
  block_str_raises : option exn
}.

(** The [__str__] of the exception a piece of work raises is code of that
    work as well, and may itself raise.  [str_raises] and
    [block_str_raises] say so for the exception [e] of [result] and
    [completion]: [None] when [str(e)] returns, which is then [str e], and
    [Some e2] when it raises [e2] instead. *)
Definition describe (raises : option exn) (e : exn) : outcome pystr :=
  match raises with
  | None => Return (str e)
  | Some e2 => Raise e2
  end.

Definition run_effect (e : effect) (w : Spinner.World) : Spinner.World :=
  match e with
  | Elapse n => Spinner.elapse n w
  | Emit s => Spinner.emit [Write Fg s] w
  end.

Definition run_effects (es : list effect) (w : Spinner.World) : Spinner.World :=
  fold_left (fun w e => run_effect e w) es w.

Definition run_step (b : block_step) (w : Spinner.World) : Spinner.World :=
  match b with
  | Do e => run_effect e w
  | Call_update_message m => Spinner.update_message m w
  end.

Definition run_steps (bs : list block_step) (w : Spinner.World) : Spinner.World :=
  fold_left (fun w b => run_step b w) bs w.

(** The literals of lines 157/212 and 162/215. *)
Definition DOTS : pystr := py "...".
Definition TICKED : pystr := SPACE :: CHECK.
Definition FAILED : pystr := py "Failed: ".

(** [success_message or message.replace("...", " \u2713")] *)
Definition success_msg (message success_message : pystr) : pystr :=
  py_or success_message (replace DOTS TICKED message).

(** A world with a newly constructed spinner and the stream as it is. *)
Definition fresh (message color : pystr) (out : list event) : Spinner.World :=
  {| Spinner.spinner := Spinner.init message color;
     Spinner.stdout := out;
     Spinner.calls := [] |}.

(** ** def show_progress *)

Section ShowProgress.

Variables (Args R : Type).

(** [show_progress(message, success_message)(func)(args)]: the
    body of [wrapper], lines 152-163. *)
Definition show_progress (message success_message : pystr)
  (func : Args -> behaviour R) (args : Args)
  (patience : nat) (out : list event)
  : option (Spinner.World * outcome R) :=
  let w0 := fresh message Colors.CYAN out in
  let w1 := Spinner.start w0 in
  let call := func args in
  let w2 := run_effects (effects call) w1 in
  match result call with
  | Return r =>
      match Spinner.stop patience (success_msg message success_message)
                         CHECK Colors.GREEN w2 with
      | Some w3 => Some (w3, Return r)
      | None => None
      end
  | Raise e =>
      if is_Exception e then
        (* line 162: the f-string is evaluated before [stop] is called *)
        match describe (str_raises call) e with
        | Return text =>
            match Spinner.stop patience (FAILED ++ text) CROSS Colors.RED
                               w2 with
            | Some w3 => Some (w3, Raise e)
            | None => None
            end
        | Raise e2 => Some (w2, Raise e2)
        end
      else Some (w2, Raise e)
  end.

End ShowProgress.

(** ** class UI *)

Module UI.

(** A reference to the spinner of the activation. *)
Inductive spinner_ref := The_spinner.

Record t := { current_spinner : option spinner_ref }.

(** [UI.__init__] *)
Definition init : t := {| current_spinner := None |}.

(** [with ui.progress(message, success_message) as spinner: <block>],
    lines 206-218. *)
Definition progress (ui : t) (message success_message : pystr)
  (body : block) (patience : nat) (out : list event)
  : option (t * Spinner.World * outcome unit) :=
  let w0 := fresh message Colors.CYAN out in
  let ui1 := {| current_spinner := Some The_spinner |} in
  let w1 := Spinner.start w0 in
  let w2 := run_steps (steps body) w1 in
  let ui2 := {| current_spinner := None |} in
  match completion body with
  | Return _ =>
      match Spinner.stop patience (success_msg message success_message)
                         CHECK Colors.GREEN w2 with
      | Some w3 => Some (ui2, w3, Return tt)
      | None => None
      end
  | Raise e =>
      if is_Exception e then
        (* line 215: the f-string is evaluated before [stop] is called *)
        match describe (block_str_raises body) e with
        | Return text =>
            match Spinner.stop patience (FAILED ++ text) CROSS Colors.RED
                               w2 with
            | Some w3 => Some (ui2, w3, Raise e)
            | None => None
            end
        | Raise e2 => Some (ui2, w2, Raise e2)
        end
      else Some (ui2, w2, Raise e)
  end.

(** *** The print methods

    Each is the list of calls it makes on the stream. *)

Definition width : nat := 80.

(** Lines 227, 239, 269, 278. *)
Definition print_header (text : pystr) : list event :=
  print Fg ([LF] ++ Colors.BOLD ++ Colors.BLUE ++ [9581; 9472; SPACE]%N
            ++ text ++ Colors.ENDC).

Definition print_user_query (query : pystr) : list event :=
  print Fg ([LF] ++ Colors.BOLD ++ Colors.LIGHT_BLUE ++ py "You: " ++ query
            ++ Colors.ENDC ++ [LF]).

Definition print_task_start (task_desc : pystr) : list event :=
  print Fg ([LF] ++ Colors.BOLD ++ Colors.CYAN ++ [9654%N] ++ py " Task:"
            ++ Colors.ENDC ++ [SPACE] ++ task_desc).

Definition print_task_done (task_desc : pystr) : list event :=
  print Fg (Colors.GREEN ++ py "  " ++ CHECK ++ py " Completed" ++ Colors.ENDC
            ++ [SPACE] ++ Colors.DIM ++ [9474%N; SPACE] ++ task_desc
            ++ Colors.ENDC).

(** [print_tool_params], lines 287-288. *)
Definition print_tool_params (params : pystr) : list event :=
  let params_display :=
    if truthy params && (0 <? length params)
    then [SPACE] ++ Colors.DIM ++ params ++ Colors.ENDC
    else [] in
  print Fg (py "  " ++ Colors.MAGENTA ++ [8594%N] ++ Colors.ENDC
            ++ py "  Parameters: " ++ params_display).

(** The display of a result, line 298. *)
Definition result_display (result : pystr) : pystr :=
  if truthy result && (0 <? length result)
  then [SPACE] ++ Colors.DIM ++ py "(" ++ PyText.upto 150 result ++ py "...)"
       ++ Colors.ENDC
  else [].

(** [print_tool_run], lines 298-299. *)
Definition print_tool_run (result : pystr) : list event :=
  print Fg (py "  " ++ Colors.YELLOW ++ [9889%N] ++ Colors.ENDC
            ++ py " Result: " ++ result_display result).

(** Lines 357, 366, 375. *)
Definition print_info (message : pystr) : list event :=
  print Fg (Colors.DIM ++ message ++ Colors.ENDC).

Definition print_error (message : pystr) : list event :=
  print Fg (Colors.RED ++ CROSS ++ py " Error:" ++ Colors.ENDC ++ [SPACE]
            ++ message).

Definition print_warning (message : pystr) : list event :=
  print Fg (Colors.YELLOW ++ [9888%N] ++ py " Warning:" ++ Colors.ENDC
            ++ [SPACE] ++ message).

(** The glyphs of the answer box. *)
Definition DH : N := 9552.   (* U+2550, double horizontal *)
Definition DV : N := 9553.   (* U+2551, double vertical *)

(** A row of the box between its two blue borders (lines 325, 329, 340,
    343, 345). *)
Definition framed (inner : pystr) : pystr :=
  Colors.BLUE ++ [DV] ++ Colors.ENDC ++ inner
  ++ Colors.BLUE ++ [DV] ++ Colors.ENDC.

(** The empty row, lines 325, 329 and 345. *)
Definition blank_inner : pystr := times SPACE (width - 2).

(** The inside of a row of text, lines 340 and 343. *)
Definition text_inner (current_line : pystr) : pystr :=
  [SPACE] ++ PyText.ljust (width - 4) current_line ++ [SPACE].

(** The loop over the words of a line (lines 333-341): the lines it prints
    and the line it is left with. *)
Fixpoint wrap_loop (current_line : pystr) (words : list pystr)
  : list pystr * pystr :=
  match words with
  | [] => ([], current_line)
  | word :: rest =>
      if length current_line + length word + 1 <=? width - 6
      then wrap_loop (current_line ++ word ++ [SPACE]) rest
      else
        let (printed, left) := wrap_loop (word ++ [SPACE]) rest in
        ((if truthy current_line then [current_line] else []) ++ printed,
         left)
  end.

(** The lines of text printed for one line of the answer that is not
    empty (lines 332-343). *)
Definition wrap (line : pystr) : list pystr :=
  let (printed, left) := wrap_loop [] (PyText.split line) in
  printed ++ (if truthy left then [left] else []).

(** The insides of the rows printed for one line of the answer (lines
    327-343). *)
Definition line_inners (line : pystr) : list pystr :=
  if length line =? 0 then [blank_inner]
  else map text_inner (wrap line).

(** The insides of the rows printed for the answer, lines 326-343. *)
Definition answer_inners (answer : pystr) : list pystr :=
  flat_map line_inners (PyText.split_on LF answer).

(** [print_answer], lines 311-348. *)
Definition print_answer (answer : pystr) : list event :=
  let title := py "ANSWER" in
  let padding := (width - length title - 2) / 2 in
  print Fg ([LF] ++ Colors.BOLD ++ Colors.BLUE ++ [9556%N]
            ++ times DH (width - 2) ++ [9559%N] ++ Colors.ENDC)
  ++ print Fg (Colors.BOLD ++ Colors.BLUE ++ [DV] ++ times SPACE padding
               ++ title
               ++ times SPACE (width - length title - padding - 2)
               ++ [DV] ++ Colors.ENDC)
  ++ print Fg (Colors.BLUE ++ [9568%N] ++ times DH (width - 2) ++ [9571%N]
               ++ Colors.ENDC)
  ++ print Fg (framed blank_inner)
  ++ flat_map (fun inner => print Fg (framed inner)) (answer_inners answer)
  ++ print Fg (framed blank_inner)
  ++ print Fg (Colors.BOLD ++ Colors.BLUE ++ [9562%N]
               ++ times DH (width - 2) ++ [9565%N] ++ Colors.ENDC ++ [LF]).

End UI.

(** ** class Logger (utils/logger.py) *)

Module Logger.

Record t := { ui : UI.t; log : list pystr }.

(** [Logger.__init__] *)
Definition init : t := {| ui := UI.init; log := [] |}.

(** [Logger._log]: [print(msg, flush=True)], then [self.log.append(msg)].
    The state is the logger and the stream. *)
Definition _log (msg : pystr) (st : t * list event) : t * list event :=
  let (lg, out) := st in
  ({| ui := ui lg; log := log lg ++ [msg] |},
   out ++ print Fg msg ++ [Flush Fg]).

(** [Logger.log_tool_run], on the [str()] of its two arguments. *)
Definition log_tool_run (str_params str_result : pystr) : list event :=
  UI.print_tool_params str_params ++ UI.print_tool_run str_result.

(** [Logger.log_summary] *)
Definition log_summary (summary : pystr) : list event :=
  UI.print_answer summary.

(** [Logger.progress] *)
Definition progress (lg : t) (message success_message : pystr)
  (body : block) (patience : nat) (out : list event)
  : option (t * Spinner.World * outcome unit) :=
  match UI.progress (ui lg) message success_message body patience out with
  | Some (ui', w, o) => Some ({| ui := ui'; log := log lg |}, w, o)
  | None => None
  end.

End Logger.

(** ** class Agent (main.py) *)

Module Agent.

(** [Agent.run], lines 40-53, after the dialog has returned [result]; the
    animation thread makes [nap] steps during [time.sleep(5)]. *)
Definition run (result : pystr) (nap patience : nat) (out : list event)
  : option (Spinner.World * pystr) :=
  let out1 := out ++ print Fg (py "You have chosen: " ++ result) in
  let w0 := fresh (py "Processing your input...") (Colors.ESC :: py "[96m")
                  out1 in
  let w1 := Spinner.start w0 in
  let w2 := Spinner.elapse nap w1 in
  match Spinner.stop patience (py "Processing complete!") CHECK
                     (Colors.ESC :: py "[92m") w2 with
  | Some w3 => Some (w3, py "Processed: " ++ result)
  | None => None
  end.

End Agent.

(** ** class AgentDemo (agent_demo.py) *)

Module AgentDemo.

Record t := { logger : Logger.t; ui : UI.t }.

(** [AgentDemo.__init__] *)
Definition init : t := {| logger := Logger.init; ui := UI.init |}.

(** An exception object, with whether it is an instance of
    [KeyboardInterrupt]. *)
Record error := { base : exn; is_KeyboardInterrupt : bool }.

(** What a call of [input(prompt)] does: what it sends to the stream to
    show the prompt, and the line it reads or the exception it raises. *)
Record input_result := { prompted : list event; typed : pystr + error }.

(** [greet_user], lines 35-39. *)
Definition greet_user : list event :=
  UI.print_header (py "Agent Demo - Simple Interactive Demo")
  ++ UI.print_user_query
       (py "Hello! I'm Agent Demo, a simple interactive assistant.").

(** [get_user_input], lines 54-65: what it prints, and how it ends. *)
Definition get_user_input (inp : input_result)
  : list event * outcome pystr :=
  let shown := UI.print_info (py "I'm ready to listen to you!")
               ++ prompted inp in
  match typed inp with
  | inl user_input => (shown, Return user_input)
  | inr e =>
      if is_KeyboardInterrupt e
      then (shown ++ UI.print_warning (py "Input interrupted by user"),
            Return [])
      else if is_Exception (base e)
      then (shown ++ UI.print_error (py "Error getting input: "
                                     ++ str (base e)),
            Return [])
      else (shown, Raise (base e))
  end.

(** The last words of [run], line 122. *)
Definition goodbye : list event :=
  print Fg ([LF; 128075]%N ++ py " Goodbye from Agent2!" ++ [LF]).

Definition BULLET : N := 8226.
Definition QUOTE : N := 34.

Section Analysis.

(** [c.isdigit()] and [c.isalnum()] for one character. *)
Variables isdigit isalnum : N -> bool.

Definition yes_no (b : bool) : pystr := if b then py "Yes" else py "No".

(** The f-string of lines 79-87. *)
Definition response (user_input : pystr) : pystr :=
  py "You said: " ++ [QUOTE] ++ user_input ++ [QUOTE] ++ [LF; LF]
  ++ py "Thank you for sharing that with me! I received your message successfully."
  ++ [LF; LF] ++ py "Input analysis:" ++ [LF]
  ++ [BULLET] ++ py " Length: " ++ PyText.str_of_nat (length user_input)
  ++ py " characters" ++ [LF]
  ++ [BULLET] ++ py " Word count: "
  ++ PyText.str_of_nat (length (PyText.split user_input))
  ++ py " words" ++ [LF]
  ++ [BULLET] ++ py " Contains numbers: "
  ++ yes_no (existsb isdigit user_input) ++ [LF]
  ++ [BULLET] ++ py " Contains special chars: "
  ++ yes_no (existsb (fun c => negb (isalnum c) && negb (PyText.isspace c))
                     user_input).

(** [echo_user_input], lines 74-90. *)
Definition echo_user_input (user_input : pystr) : list event :=
  if negb (truthy (PyText.strip user_input))
  then UI.print_warning (py "No input received or input was empty")
  else Logger.log_summary (response user_input).

(** The [try] block of [run], lines 104-116.  The animation thread makes
    [nap] steps during the [time.sleep(3.0)] of [wait_with_progress],
    which ends as [sleep] says. *)
Definition attempt (a : t) (nap : nat) (sleep : outcome unit)
  (inp : input_result) (patience : nat) (out : list event)
  : option (Spinner.World * outcome unit) :=
  match Logger.progress (logger a) (py "Initializing system...")
                        (py "System ready!")
                        {| steps := [Do (Elapse nap)]; completion := sleep;
                           block_str_raises := None |}
                        patience (out ++ greet_user) with
  | None => None
  | Some (_, w, Raise e) => Some (w, Raise e)
  | Some (_, w, Return _) =>
      let (shown, got) := get_user_input inp in
      let w1 := Spinner.emit shown w in
      match got with
      | Raise e => Some (w1, Raise e)
      | Return user_input =>
          Some (Spinner.emit
                  (UI.print_info (py "Agent2 interaction complete. Thank you!"))
                  (Spinner.emit (echo_user_input user_input) w1),
                Return tt)
      end
  end.

(** [AgentDemo.run], lines 102-122.  When an exception passes through,
    the thread of a spinner that is still running makes [lag] steps before
    the [finally] clause prints. *)
Definition run (a : t) (nap : nat) (sleep : outcome unit)
  (inp : input_result) (lag patience : nat) (out : list event)
  : option (Spinner.World * outcome unit) :=
  match attempt a nap sleep inp patience out with
  | None => None
  | Some (w, Return _) => Some (Spinner.emit goodbye w, Return tt)
  | Some (w, Raise e) =>
      if is_Exception e
      then Some (Spinner.emit goodbye
                   (Spinner.emit
                      (UI.print_error (py "Agent2 encountered an error: "
                                       ++ str e)) w),
                 Return tt)
      else Some (Spinner.emit goodbye (Spinner.elapse lag w), Raise e)
  end.

End Analysis.

End AgentDemo.

(** ** Driving a spinner through its methods *)

Module Script.

(** What the holder of a spinner does next: one of the three methods, or
    something else, during which the thread makes [n] steps. *)
Inductive action :=
| Do_start
| Do_stop (final_message symbol symbol_color : pystr)
| Do_update_message (m : pystr)
| Do_wait (n : nat).

Definition perform (patience : nat) (a : action) (w : Spinner.World)
  : option Spinner.World :=
  match a with
  | Do_start => Some (Spinner.start w)
  | Do_stop fm sym col => Spinner.stop patience fm sym col w
  | Do_update_message m => Some (Spinner.update_message m w)
  | Do_wait n => Some (Spinner.elapse n w)
  end.

(** A sequence of actions; [None] if a [stop] in it is still blocked. *)
Fixpoint perform_all (patience : nat) (script : list action)
  (w : Spinner.World) : option Spinner.World :=
  match script with
  | [] => Some w
  | a :: rest =>
      match perform patience a w with
      | Some w' => perform_all patience rest w'
      | None => None
      end
  end.

End Script.

(** * Vocabulary of the properties *)

Module Vocabulary.
Import Spinner.

(** What a thread that will find [running] false still does: it finishes
    the tick it is in. *)
Definition pending (s : t) : list event :=
  match thread s with
  | None => []
  | Some th =>
      match at_pc th with
      | AtFormat =>
          [Write Bg (frame_line (color s) (idx th) (message s));
           Flush Bg; Sleep Bg TICK_MS]
      | AtWrite line => [Write Bg line; Flush Bg; Sleep Bg TICK_MS]
      | AtFlush => [Flush Bg; Sleep Bg TICK_MS]
      | AtSleep => [Sleep Bg TICK_MS]
      | AtTest | AtIncr | Exited => []
      end
  end.

(** The thread once it has left the loop. *)
Definition finished (th : Thread) : Thread :=
  {| idx := match at_pc th with
            | AtTest | Exited => idx th
            | _ => idx th + 1
            end;
     at_pc := Exited |}.

Definition halted (s : t) : bool :=
  match thread s with
  | None => true
  | Some th => exited th
  end.

(** A spinner caught in its second tick: started on an empty stream and
    left alone for nine steps of its thread. *)
Definition working : World :=
  elapse 9 (start (fresh (py "Working...") Colors.CYAN [])).

(** What one pass of the loop of [_animate] sends to the stream. *)
Definition tick_events (col msg : pystr) (n : nat) : list event :=
  [Write Bg ([CR] ++ col ++ nth (n mod length FRAMES) FRAMES []
             ++ Colors.ENDC ++ [SPACE] ++ msg);
   Flush Bg;
   Sleep Bg 80].

(** The thread about to test [running] with [idx = n]. *)
Definition at_tick (n : nat) (w : World) : Prop :=
  thread (spinner w) = Some {| idx := n; at_pc := AtTest |}.

(** The thread holds a line it has built and not yet written. *)
Definition in_flight (s : t) : bool :=
  match thread s with
  | Some {| at_pc := AtWrite _ |} => true
  | _ => false
  end.

(** [line] is a frame line showing [msg] in colour [col]. *)
Definition shows (col msg line : pystr) : Prop :=
  exists i, line = frame_line col i msg.

(** A line the thread holds, if any, shows the current message. *)
Definition settled (s : t) : Prop :=
  match thread s with
  | Some {| at_pc := AtWrite line |} => shows (color s) (message s) line
  | _ => True
  end.

(** The frames written between the worlds [w] and [v], the message being
    left alone: at most one line that was in flight in [w], and after it
    only lines that show the message. *)
Definition since (w v : World) : Prop :=
  message (spinner v) = message (spinner w)
  /\ color (spinner v) = color (spinner w)
  /\ ((thread (spinner v) = thread (spinner w)
       /\ frames_of (stdout v) = frames_of (stdout w))
      \/ (settled (spinner v)
          /\ exists stale fresh,
               frames_of (stdout v) = frames_of (stdout w) ++ stale ++ fresh
               /\ length stale <= 1
               /\ (in_flight (spinner w) = false -> stale = [])
               /\ Forall (shows (color (spinner w)) (message (spinner w)))
                         fresh)).

(** [line] is what [_animate] writes for the message [msg] in colour
    [col]: the carriage return, the coloured glyph of some index, and the
    message. *)
Definition renders (col msg line : pystr) : Prop :=
  exists i, line = [CR] ++ col ++ nth (i mod length FRAMES) FRAMES []
                   ++ Colors.ENDC ++ [SPACE] ++ msg.

(** Two worlds with the same spinner and the same frames so far. *)
Definition alike (v v' : World) : Prop :=
  spinner v = spinner v' /\ frames_of (stdout v) = frames_of (stdout v').

(** The steps the animation thread makes during a block. *)
Fixpoint thread_steps (bs : list block_step) : nat :=
  match bs with
  | [] => 0
  | Do (Elapse n) :: r => n + thread_steps r
  | _ :: r => thread_steps r
  end.

(** The arguments of the [update_message] calls of a block, in order. *)
Fixpoint updates_of (bs : list block_step) : list pystr :=
  match bs with
  | [] => []
  | Do _ :: r => updates_of r
  | Call_update_message m :: r => m :: updates_of r
  end.

(** The argument of the last [update_message] call of a block, or [m0] if
    it makes none. *)
Definition last_message (m0 : pystr) (bs : list block_step) : pystr :=
  last (updates_of bs) m0.

(** A block that makes no [update_message] call. *)
Definition quiet (bs : list block_step) : Prop := updates_of bs = [].

Definition is_start (c : call) : bool :=
  match c with Start => true | _ => false end.

Definition is_stop (c : call) : bool :=
  match c with Stop _ _ _ => true | _ => false end.

(** How often a method was invoked. *)
Definition count (f : call -> bool) (log : list call) : nat :=
  length (filter f log).

(** The work ends in a way the scope has an exit for: it returns, or it
    raises an instance of [Exception]. *)
Definition handled {R : Type} (o : outcome R) : bool :=
  match o with
  | Return _ => true
  | Raise e => is_Exception e
  end.

(** The call of [stop] that belongs to an outcome: the success exit for a
    return, the failure exit for a raise. *)
Definition exit_call {R : Type} (message success_message : pystr)
  (o : outcome R) : call :=
  match o with
  | Return _ =>
      Stop (success_msg message success_message) CHECK Colors.GREEN
  | Raise e => Stop (FAILED ++ str e) CROSS Colors.RED
  end.

(** The work ends in a way the scope has an exit for and can take it: it
    returns, or it raises an instance of [Exception] that [str] describes
    ([raises] is [None]). *)
Definition reported {R : Type} (o : outcome R) (raises : option exn) : bool :=
  match o, raises with
  | Return _, _ => true
  | Raise e, None => is_Exception e
  | Raise _, Some _ => false
  end.



(** Sample exceptions: an [OSError("disk full")], instance of [Exception],
    and a [KeyboardInterrupt()], which is not. *)
Definition disk_full : exn :=
  {| exn_id := 1; is_Exception := true; str := py "disk full" |}.

Definition keyboard_interrupt : exn :=
  {| exn_id := 2; is_Exception := false; str := [] |}.

(** An instance of [Exception] whose [__str__] raises a [TypeError]. *)
Definition mute : exn :=
  {| exn_id := 3; is_Exception := true; str := [] |}.

Definition type_error : exn :=
  {| exn_id := 4; is_Exception := true;
     str := py "__str__ returned non-string" |}.

Definition fails_mute (_ : unit) : behaviour nat :=
  {| effects := [Elapse 9]; result := Raise mute;
     str_raises := Some type_error |}.

(** Sample work: a call that takes a while and returns 42, one that fails,
    one that is interrupted; a block that updates the message twice. *)
Definition returns_42 (_ : unit) : behaviour nat :=
  {| effects := [Elapse 9]; result := Return 42; str_raises := None |}.

Definition fails (_ : unit) : behaviour nat :=
  {| effects := [Elapse 9]; result := Raise disk_full; str_raises := None |}.

Definition interrupted (_ : unit) : behaviour nat :=
  {| effects := [Elapse 9]; result := Raise keyboard_interrupt;
     str_raises := None |}.

Definition loading : block :=
  {| steps := [Do (Elapse 9); Call_update_message (py "Processing data...");
               Do (Elapse 4); Call_update_message (py "Almost there...");
               Do (Elapse 7)];
     completion := Return tt;
     block_str_raises := None |}.

Definition loading_fails : block :=
  {| steps := steps loading; completion := Raise disk_full;
     block_str_raises := None |}.

Definition loading_interrupted : block :=
  {| steps := steps loading; completion := Raise keyboard_interrupt;
     block_str_raises := None |}.

End Vocabulary.

(** * Vocabulary of the further properties *)

Module Terms.
Import Spinner Vocabulary.

(** The flag and the thread agree: the spinner is running exactly when its
    thread is inside [_animate]. *)
Definition in_step (s : t) : Prop := running s = negb (halted s).

(** A session with a spinner: started, updated, stopped twice, started
    again. *)
Definition session : list Script.action :=
  [Script.Do_start; Script.Do_wait 8;
   Script.Do_update_message (py "Still working...");
   Script.Do_start; Script.Do_wait 5;
   Script.Do_stop (py "Done") CHECK Colors.GREEN;
   Script.Do_stop (py "Done again") CHECK Colors.GREEN;
   Script.Do_wait 3; Script.Do_start; Script.Do_wait 4].

(** The text of [k] frames of the animation, from the first glyph on. *)
Definition animation (col msg : pystr) (k : nat) : pystr :=
  concat (map (fun i => frame_line col i msg) (seq 0 k)).

(** A word: not empty, and without whitespace. *)
Definition word (w : pystr) : Prop :=
  w <> [] /\ Forall (fun c => PyText.isspace c = false) w.

(** A word with the space the wrapping puts after it. *)
Definition spaced (w : pystr) : pystr := w ++ [SPACE].

(** [R] holds between every element of a list and the next one. *)
Fixpoint adjacent {A : Type} (R : A -> A -> Prop) (l : list A) : Prop :=
  match l with
  | a :: ((b :: _) as t) => R a b /\ adjacent R t
  | _ => True
  end.

(** The first word of the line [next] had no room left on the line [l]:
    the test of line 336 fails for it. *)
Definition no_room (l next : pystr) : Prop :=
  forall w ws, PyText.split next = w :: ws ->
               UI.width - 6 < length l + length w + 1.

(** [input()] brings nothing to echo: a line of whitespace, or an
    exception that [get_user_input] turns into the empty string. *)
Definition nothing_typed (inp : AgentDemo.input_result) : Prop :=
  match AgentDemo.typed inp with
  | inl user_input => Forall (fun c => PyText.isspace c = true) user_input
  | inr e =>
      AgentDemo.is_KeyboardInterrupt e = true
      \/ is_Exception (AgentDemo.base e) = true
  end.

(** [isdigit] and [isalnum] on the ASCII characters, for examples. *)
Definition ascii_isdigit (c : N) : bool := ((48 <=? c) && (c <=? 57))%N.

Definition ascii_isalnum (c : N) : bool :=
  (ascii_isdigit c || (65 <=? c) && (c <=? 90) || (97 <=? c) && (c <=? 122))%N.

(** The user presses Ctrl-C at the prompt. *)
Definition ctrl_c : AgentDemo.input_result :=
  {| AgentDemo.prompted := [];
     AgentDemo.typed :=
       inr {| AgentDemo.base := keyboard_interrupt;
              AgentDemo.is_KeyboardInterrupt := true |} |}.

(** A line of blanks, and a text with a word too long for the box. *)
Definition blanks : pystr := py "   ".

Definition long_word : pystr := times 120 76.

End Terms.

(** * Properties *)

Unset Implicit Arguments.

(** ** The animation thread and [join] *)

Module SpinnerFacts.
Import Spinner Vocabulary.

Ltac break_world w :=
  let m := fresh "msg" in
  let c := fresh "col" in
  let r := fresh "run" in
  let th := fresh "th" in
  let o := fresh "out" in
  let l := fresh "log" in
  destruct w as [[m c r th] o l].

Ltac break_thread th :=
  let i := fresh "i" in
  let p := fresh "p" in
  destruct th as [[i p]|]; [destruct p|].

Ltac splits := repeat match goal with |- _ /\ _ => split end.

Ltac unfold_world :=
  cbv [goto emit invoked with_spinner set_thread set_running set_message
       finished pending option_map];
  cbn [spinner stdout calls message color running thread idx at_pc].

Lemma animate_step_halted (w : World) :
  halted (spinner w) = true -> animate_step w = w.
Proof.
  break_world w; break_thread th; cbn; intros H;
    try discriminate H; reflexivity.
Qed.

Lemma elapse_halted (n : nat) (w : World) :
  halted (spinner w) = true -> elapse n w = w.
Proof.
  intros H. induction n as [|n IH]; cbn; [reflexivity|].
  rewrite animate_step_halted by exact H. exact IH.
Qed.

(** The thread never touches the fields the foreground owns, and the
    stream only grows, by what the thread itself wrote. *)
Lemma animate_step_frame (w : World) :
  message (spinner (animate_step w)) = message (spinner w)
  /\ color (spinner (animate_step w)) = color (spinner w)
  /\ running (spinner (animate_step w)) = running (spinner w)
  /\ calls (animate_step w) = calls w
  /\ exists evs, stdout (animate_step w) = stdout w ++ evs
                 /\ Forall (fun e => is_bg e = true) evs.
Proof.
  break_world w; break_thread th; cbn; try destruct run; cbn;
    splits; try reflexivity;
    first [ exists []; rewrite app_nil_r; split; [reflexivity | constructor]
          | eexists; split; [reflexivity | repeat constructor] ].
Qed.

Lemma elapse_frame (n : nat) (w : World) :
  message (spinner (elapse n w)) = message (spinner w)
  /\ color (spinner (elapse n w)) = color (spinner w)
  /\ running (spinner (elapse n w)) = running (spinner w)
  /\ calls (elapse n w) = calls w
  /\ exists evs, stdout (elapse n w) = stdout w ++ evs
                 /\ Forall (fun e => is_bg e = true) evs.
Proof.
  revert w. induction n as [|n IH]; intros w; cbn.
  - splits; try reflexivity.
    exists []; rewrite app_nil_r; split; [reflexivity | constructor].
  - destruct (IH (animate_step w)) as (Hm & Hc & Hr & Hl & evs & Ho & Hbg).
    destruct (animate_step_frame w) as (Hm' & Hc' & Hr' & Hl' & evs' & Ho' & Hbg').
    splits; try congruence.
    exists (evs' ++ evs). split.
    + rewrite Ho, Ho', app_assoc. reflexivity.
    + apply Forall_app; split; assumption.
Qed.

(** [join] returns only once the thread has left [_animate]. *)
Lemma join_halted (p : nat) (w w' : World) :
  join p w = Some w' -> halted (spinner w') = true.
Proof.
  revert w. induction p as [|p IH]; intros w; cbn;
    destruct (thread (spinner w)) as [th|] eqn:Hth.
  - destruct (exited th) eqn:He; [|discriminate].
    intros [= <-]. unfold halted. rewrite Hth. exact He.
  - intros [= <-]. unfold halted. rewrite Hth. reflexivity.
  - destruct (exited th) eqn:He.
    + intros [= <-]. unfold halted. rewrite Hth. exact He.
    + apply IH.
  - intros [= <-]. unfold halted. rewrite Hth. reflexivity.
Qed.

(** With [running] false the thread leaves within six steps, so a caller
    that waits that long is released, in the state where the thread has
    finished its tick. *)
Lemma join_enough (p : nat) (w : World) :
  running (spinner w) = false -> 6 <= p ->
  join p w =
  Some {| spinner := set_thread (option_map finished (thread (spinner w)))
                                (spinner w);
          stdout := stdout w ++ pending (spinner w);
          calls := calls w |}.
Proof.
  intros Hr Hp.
  destruct p as [|[|[|[|[|[|p]]]]]]; try lia.
  break_world w; cbn in Hr; subst run.
  break_thread th; destruct p; cbn; unfold_world;
    rewrite <- ?app_assoc, ?app_nil_r; reflexivity.
Qed.

(** Whatever [join] returns is the world some steps of the thread later. *)
Lemma join_elapse (p : nat) (w w' : World) :
  join p w = Some w' -> exists k, w' = elapse k w.
Proof.
  revert w. induction p as [|p IH]; intros w; cbn;
    destruct (thread (spinner w)) as [th|];
    try destruct (exited th);
    try discriminate; try (intros [= <-]; exists 0; reflexivity).
  intros H. destruct (IH _ H) as [k ->]. exists (S k). reflexivity.
Qed.

(** [stop] on a spinner that is not running. *)
Lemma stop_idle (p : nat) (fm sym col : pystr) (w : World) :
  running (spinner w) = false ->
  stop p fm sym col w = Some (invoked (Stop fm sym col) w).
Proof.
  intros Hr. unfold stop. cbn. rewrite Hr. reflexivity.
Qed.

(** [stop] on a running spinner, given the patience to wait for the
    thread. *)
Lemma stop_running (p : nat) (fm sym col : pystr) (w : World) :
  running (spinner w) = true -> 6 <= p ->
  stop p fm sym col w =
  Some {| spinner := set_thread (option_map finished (thread (spinner w)))
                                (set_running false (spinner w));
          stdout := stdout w ++ pending (spinner w)
                    ++ stop_output (message (spinner w)) fm sym col;
          calls := calls w ++ [Stop fm sym col] |}.
Proof.
  intros Hr Hp. unfold stop. cbn [invoked spinner]. rewrite Hr.
  break_world w. cbn in Hr. subst run. destruct th as [th|].
  - cbn [with_spinner set_running spinner thread message color running
         stdout calls].
    rewrite join_enough by (cbn; trivial).
    unfold emit; cbn. rewrite <- app_assoc. reflexivity.
  - cbn. reflexivity.
Qed.

(** Whenever [stop] returns, the spinner is not running and its thread has
    left; the stream has grown by what the thread still wrote followed by
    what [stop] wrote after the join. *)
Lemma stop_returned (p : nat) (fm sym col : pystr) (w w' : World) :
  running (spinner w) = true ->
  stop p fm sym col w = Some w' ->
  running (spinner w') = false
  /\ halted (spinner w') = true
  /\ message (spinner w') = message (spinner w)
  /\ color (spinner w') = color (spinner w)
  /\ calls w' = calls w ++ [Stop fm sym col]
  /\ exists bg, stdout w' =
                stdout w ++ bg ++ stop_output (message (spinner w)) fm sym col
                /\ Forall (fun e => is_bg e = true) bg.
Proof.
  intros Hr. unfold stop. cbn [invoked spinner]. rewrite Hr.
  set (w1 := with_spinner _ _).
  assert (Hw1 : message (spinner w1) = message (spinner w)
                /\ color (spinner w1) = color (spinner w)
                /\ running (spinner w1) = false
                /\ stdout w1 = stdout w
                /\ calls w1 = calls w ++ [Stop fm sym col])
    by (splits; reflexivity).
  destruct Hw1 as (Hm1 & Hc1 & Hr1 & Ho1 & Hl1).
  destruct (thread (spinner w1)) as [th|] eqn:Hth.
  - destruct (join p w1) as [w2|] eqn:Hj; [|discriminate].
    intros [= <-].
    pose proof (join_halted _ _ _ Hj) as Hh.
    destruct (join_elapse _ _ _ Hj) as [k ->].
    destruct (elapse_frame k w1) as (Hm & Hc & Hr2 & Hl & evs & Ho & Hbg).
    cbn [emit spinner stdout calls].
    splits; try congruence.
    exists evs. split; [|exact Hbg].
    rewrite Ho, Hm, Hm1, Ho1, <- app_assoc. reflexivity.
  - intros [= <-]. cbn [emit spinner stdout calls].
    splits; try congruence.
    + unfold halted. rewrite Hth. reflexivity.
    + exists []. split; [|constructor]. subst w1. reflexivity.
Qed.

End SpinnerFacts.

(** ** Spinner._animate *)

Section Animate.
Import Spinner Vocabulary SpinnerFacts.

Lemma elapse_add (a b : nat) (w : World) :
  elapse (a + b) w = elapse b (elapse a w).
Proof.
  revert w. induction a as [|a IH]; intros w; cbn; [reflexivity | apply IH].
Qed.

(** One pass of the loop, six steps of the thread from the loop test. *)
Lemma one_tick (n : nat) (w : World) :
  running (spinner w) = true -> at_tick n w ->
  elapse 6 w =
  {| spinner := set_thread (Some {| idx := n + 1; at_pc := AtTest |})
                           (spinner w);
     stdout := stdout w
               ++ tick_events (color (spinner w)) (message (spinner w)) n;
     calls := calls w |}.
Proof.
  unfold at_tick. break_world w. cbn. intros -> ->. cbn. unfold_world.
  rewrite <- !app_assoc. reflexivity.
Qed.

Lemma many_ticks (k n : nat) (w : World) :
  running (spinner w) = true -> at_tick n w ->
  elapse (6 * k) w =
  {| spinner := set_thread (Some {| idx := n + k; at_pc := AtTest |})
                           (spinner w);
     stdout := stdout w
               ++ flat_map (tick_events (color (spinner w))
                                        (message (spinner w)))
                           (seq n k);
     calls := calls w |}.
Proof.
  revert n w. induction k as [|k IH]; intros n w Hr Hn.
  - replace (6 * 0) with 0 by reflexivity.
    replace (n + 0) with n by lia.
    cbn [elapse seq flat_map]. rewrite app_nil_r.
    unfold at_tick in Hn. break_world w. cbn in *. subst. reflexivity.
  - replace (6 * S k) with (6 + 6 * k) by lia.
    rewrite elapse_add, (one_tick n w Hr Hn).
    rewrite IH with (n := n + 1); [|exact Hr|reflexivity].
    cbn [spinner stdout calls seq flat_map].
    unfold set_thread. cbn [message color running].
    rewrite <- app_assoc. replace (n + 1 + k) with (n + S k) by lia.
    replace (n + 1) with (S n) by lia. reflexivity.
Qed.

(** C7.  From the loop test of a running spinner with [idx = n], the next
    six steps of the thread write exactly
    ['\r' color FRAMES[n mod len(FRAMES)] ENDC ' ' message], flush, sleep
    [TICK_MS] = 80 milliseconds, and come back to the loop test with
    [idx = n + 1].  Hence the [k] first passes after [start] write the
    frames of indices [0 .. k-1] in order, each followed by one sleep.
    [FRAMES] is a constant of ten glyphs, read at [n mod 10]. *)
Theorem animation_tick (n : nat) (w : World) :
  running (spinner w) = true -> at_tick n w ->
  elapse 6 w =
    {| spinner := set_thread (Some {| idx := n + 1; at_pc := AtTest |})
                             (spinner w);
       stdout := stdout w
                 ++ [Write Bg ([CR] ++ color (spinner w)
                               ++ nth (n mod length FRAMES) FRAMES []
                               ++ Colors.ENDC ++ [SPACE]
                               ++ message (spinner w));
                     Flush Bg;
                     Sleep Bg TICK_MS];
       calls := calls w |}
  /\ (forall k w0,
        w = start w0 -> running (spinner w0) = false ->
        n = 0
        /\ at_tick k (elapse (6 * k) w)
        /\ stdout (elapse (6 * k) w) =
           stdout w0
           ++ flat_map (tick_events (color (spinner w0)) (message (spinner w0)))
                       (seq 0 k))
  /\ length FRAMES = 10
  /\ nth ((n + length FRAMES) mod length FRAMES) FRAMES []
     = nth (n mod length FRAMES) FRAMES [].
Proof.
  intros Hr Hn. splits.
  - apply (one_tick n w Hr Hn).
  - intros k w0 -> Hr0.
    assert (H0 : at_tick 0 (start w0)).
    { unfold start, at_tick. cbn [invoked spinner]. rewrite Hr0. reflexivity. }
    assert (n = 0) as ->.
    { unfold at_tick in *. rewrite H0 in Hn. congruence. }
    rewrite (many_ticks k 0 _ Hr H0).
    splits; [reflexivity | reflexivity |].
    cbn [stdout]. unfold start. cbn [invoked spinner]. rewrite Hr0.
    reflexivity.
  - reflexivity.
  - rewrite Nat.Div0.add_mod, Nat.Div0.mod_same, Nat.add_0_r,
      Nat.Div0.mod_mod.
    reflexivity.
Qed.

Lemma animation_tick_witness :
  running (spinner (elapse 6 (start (fresh (py "Working...") Colors.CYAN []))))
    = true
  /\ frames_of (stdout (elapse 12
                          (start (fresh (py "Working...") Colors.CYAN []))))
     = [[CR] ++ Colors.CYAN ++ [10251%N] ++ Colors.ENDC ++ [SPACE]
        ++ py "Working...";
        [CR] ++ Colors.CYAN ++ [10265%N] ++ Colors.ENDC ++ [SPACE]
        ++ py "Working..."].
Proof.
  split; [reflexivity|].
  change 12 with (6 + 6). rewrite elapse_add.
  rewrite (proj1 (animation_tick 1
                    (elapse 6 (start (fresh (py "Working...") Colors.CYAN [])))
                    eq_refl eq_refl)).
  reflexivity.
Defined.

End Animate.

(** ** Spinner.stop and Spinner.start *)

Section StopStart.
Import Spinner Vocabulary SpinnerFacts.

Lemma stop_output_fg (msg fm sym col : pystr) :
  Forall (fun e => is_fg e = true) (stop_output msg fm sym col).
Proof.
  unfold stop_output, print. destruct (truthy fm); repeat constructor.
Qed.

(** C4.  On a running spinner, [stop] clears [running] and returns only
    once the animation thread has left its loop (however long the caller is
    prepared to wait, it is never released earlier, and six steps of the
    thread always suffice).  Everything the thread wrote precedes the
    clearing and the final line, which are written by the caller alone, and
    once [stop] has returned no step of the thread changes the world again:
    nothing more is written. *)
Theorem stop_joins_before_output
  (p : nat) (fm sym col : pystr) (w : World) :
  running (spinner w) = true ->
  (forall w', stop p fm sym col w = Some w' ->
     running (spinner w') = false
     /\ halted (spinner w') = true
     /\ (exists bg,
           stdout w' =
           stdout w ++ bg ++ stop_output (message (spinner w)) fm sym col
           /\ Forall (fun e => is_bg e = true) bg
           /\ Forall (fun e => is_fg e = true)
                      (stop_output (message (spinner w)) fm sym col))
     /\ forall n, elapse n w' = w')
  /\ (6 <= p -> exists w', stop p fm sym col w = Some w').
Proof.
  intros Hr. split.
  - intros w' Hs.
    destruct (stop_returned _ _ _ _ _ _ Hr Hs)
      as (Hr' & Hh & _ & _ & _ & bg & Ho & Hbg).
    splits; try assumption.
    + exists bg. splits; try assumption. apply stop_output_fg.
    + intros n. apply elapse_halted. exact Hh.
  - intros Hp. eexists. apply stop_running; assumption.
Qed.

Lemma stop_joins_before_output_witness :
  running (spinner working) = true
  /\ exists w', stop 6 (py "Done") CHECK Colors.GREEN working = Some w'
                /\ forall n, elapse n w' = w'.
Proof.
  split; [reflexivity|].
  destruct (stop_joins_before_output 6 (py "Done") CHECK Colors.GREEN
              working eq_refl) as [Hret Hlive].
  destruct (Hlive (le_n 6)) as [w' Hw'].
  exists w'. split; [exact Hw'|]. apply (Hret w' Hw').
Defined.

(** C5.  [start] on a running spinner leaves the spinner (its thread
    included) and the stream as they are.  [stop] on a spinner that is not
    running returns at once, whatever the patience, and leaves the spinner
    and the stream as they are; so does a second [stop] after one that has
    returned. *)
Theorem misuse_is_noop (w : World) :
  (running (spinner w) = true ->
     spinner (start w) = spinner w /\ stdout (start w) = stdout w)
  /\ (running (spinner w) = false ->
       forall p fm sym col,
       exists w', stop p fm sym col w = Some w'
                  /\ spinner w' = spinner w /\ stdout w' = stdout w)
  /\ (forall p fm sym col w1,
       stop p fm sym col w = Some w1 ->
       forall p' fm' sym' col',
       exists w2, stop p' fm' sym' col' w1 = Some w2
                  /\ spinner w2 = spinner w1 /\ stdout w2 = stdout w1).
Proof.
  assert (Hidle : forall v, running (spinner v) = false ->
            forall p fm sym col,
            exists v', stop p fm sym col v = Some v'
                       /\ spinner v' = spinner v /\ stdout v' = stdout v).
  { intros v Hv p fm sym col. rewrite stop_idle by exact Hv.
    eexists. splits; reflexivity. }
  splits.
  - intros Hr. unfold start. cbn [invoked spinner]. rewrite Hr.
    split; reflexivity.
  - exact (Hidle w).
  - intros p fm sym col w1 Hs p' fm' sym' col'. apply Hidle.
    destruct (running (spinner w)) eqn:Hr.
    + apply (stop_returned _ _ _ _ _ _ Hr Hs).
    + rewrite stop_idle in Hs by exact Hr.
      injection Hs as <-. exact Hr.
Qed.

Lemma misuse_is_noop_witness :
  running (spinner working) = true
  /\ spinner (start working) = spinner working
  /\ stdout (start working) = stdout working.
Proof.
  split; [reflexivity|].
  apply (proj1 (misuse_is_noop working)). reflexivity.
Defined.

(** C6.  On a running spinner, once the thread is joined, [stop] writes the
    clearing string (carriage return, [len(message) + 10] spaces, carriage
    return) and then, exactly when [final_message] is not empty, the line
    [symbol_color symbol ENDC ' ' final_message] followed by a line end;
    with an empty [final_message] the clearing string is the last text
    written.  The call ends with a flush. *)
Theorem stop_clears_then_prints
  (p : nat) (fm sym col : pystr) (w : World) :
  running (spinner w) = true -> 6 <= p ->
  exists w' bg,
    stop p fm sym col w = Some w'
    /\ Forall (fun e => is_bg e = true) bg
    /\ stdout w' =
       stdout w ++ bg
       ++ [Write Fg ([CR] ++ repeat SPACE (length (message (spinner w)) + 10)
                     ++ [CR])]
       ++ (match fm with
           | [] => []
           | _ :: _ =>
               [Write Fg (col ++ sym ++ Colors.ENDC ++ [SPACE] ++ fm);
                Write Fg [LF]]
           end)
       ++ [Flush Fg].
Proof.
  intros Hr Hp. rewrite stop_running by assumption.
  eexists. exists (pending (spinner w)). splits.
  - reflexivity.
  - break_world w. break_thread th; cbn; repeat constructor.
  - cbn [stdout]. unfold stop_output, clear_line, times, final_line, print.
    destruct fm; reflexivity.
Qed.

Lemma stop_clears_then_prints_witness :
  exists w' bg,
    stop 6 (py "Done") CHECK Colors.GREEN working = Some w'
    /\ Forall (fun e => is_bg e = true) bg
    /\ stdout w' =
       stdout working ++ bg
       ++ [Write Fg ([CR] ++ repeat SPACE (10 + 10) ++ [CR])]
       ++ [Write Fg (Colors.GREEN ++ CHECK ++ Colors.ENDC ++ [SPACE]
                     ++ py "Done");
           Write Fg [LF]]
       ++ [Flush Fg].
Proof.
  apply (stop_clears_then_prints 6 (py "Done") CHECK Colors.GREEN working).
  - reflexivity.
  - apply le_n.
Defined.

End StopStart.

(** ** Strings *)

Module StrFacts.

Lemma replace_scan_absent (old new s : pystr) :
  contains old s = false -> replace_scan 0 old new s = s.
Proof.
  induction s as [|c s IH]; intros H; [reflexivity|].
  cbn [contains] in H. apply orb_false_elim in H. destruct H as [Hp Hc].
  cbn [replace_scan]. rewrite Hp, (IH Hc). reflexivity.
Qed.

(** Replacing a substring that does not occur leaves the string as it is. *)
Lemma replace_absent (old new s : pystr) :
  contains old s = false -> replace old new s = s.
Proof.
  destruct old as [|a old]; intros H.
  - destruct s; discriminate H.
  - apply replace_scan_absent. exact H.
Qed.

Lemma last_cons (m d : pystr) (l : list pystr) :
  last (m :: l) d = last l m.
Proof.
  revert m d. induction l as [|a l IH]; intros m d; [reflexivity|].
  change (last (m :: a :: l) d) with (last (a :: l) d).
  rewrite (IH a d), (IH a m). reflexivity.
Qed.

End StrFacts.

(** ** The enclosed work *)

Module ScopeFacts.
Import Spinner Vocabulary SpinnerFacts StrFacts.

Lemma run_effect_frame (e : effect) (w : World) :
  message (spinner (run_effect e w)) = message (spinner w)
  /\ color (spinner (run_effect e w)) = color (spinner w)
  /\ running (spinner (run_effect e w)) = running (spinner w)
  /\ calls (run_effect e w) = calls w
  /\ exists evs, stdout (run_effect e w) = stdout w ++ evs.
Proof.
  destruct e as [n|s]; cbn [run_effect].
  - destruct (elapse_frame n w) as (Hm & Hc & Hr & Hl & evs & Ho & _).
    splits; try assumption. exists evs. exact Ho.
  - splits; try reflexivity. eexists. reflexivity.
Qed.

(** What a block leaves behind: the flag and the colour are untouched, the
    message is the last one set, and the spinner has seen the block's
    [update_message] calls and nothing else. *)
Lemma run_steps_frame (bs : list block_step) (w : World) :
  message (spinner (run_steps bs w)) = last_message (message (spinner w)) bs
  /\ color (spinner (run_steps bs w)) = color (spinner w)
  /\ running (spinner (run_steps bs w)) = running (spinner w)
  /\ calls (run_steps bs w) = calls w ++ map Update_message (updates_of bs)
  /\ exists evs, stdout (run_steps bs w) = stdout w ++ evs.
Proof.
  revert w. induction bs as [|b bs IH]; intros w.
  - cbn. splits; try reflexivity.
    + rewrite app_nil_r. reflexivity.
    + exists []. rewrite app_nil_r. reflexivity.
  - change (run_steps (b :: bs) w) with (run_steps bs (run_step b w)).
    destruct (IH (run_step b w)) as (Hm & Hc & Hr & Hl & evs & Ho).
    destruct b as [e|m]; cbn [run_step] in *.
    + destruct (run_effect_frame e w) as (Hm' & Hc' & Hr' & Hl' & evs' & Ho').
      unfold last_message in *. cbn [updates_of].
      splits; try congruence.
      exists (evs' ++ evs). rewrite Ho, Ho', app_assoc. reflexivity.
    + unfold last_message in *. cbn [updates_of map].
      rewrite last_cons.
      splits; try assumption.
      * rewrite Hl. cbn. rewrite <- app_assoc. reflexivity.
      * exists evs. exact Ho.
Qed.

Lemma run_steps_Do (es : list effect) (w : World) :
  run_steps (map Do es) w = run_effects es w.
Proof.
  revert w. induction es as [|e es IH]; intros w; [reflexivity|].
  cbn. apply IH.
Qed.

Lemma updates_of_Do (es : list effect) : updates_of (map Do es) = [].
Proof.
  induction es as [|e es IH]; [reflexivity | exact IH].
Qed.

(** The exit of a scope: the spinner that was started at entry is still
    running after the block, so [stop], given the patience for the join,
    returns; it is the last call the spinner sees, and what it writes after
    the join ends the stream. *)
Lemma scope_exit (p : nat) (fm sym col m : pystr) (out : list event)
  (bs : list block_step) :
  6 <= p ->
  exists w3,
    stop p fm sym col (run_steps bs (start (fresh m Colors.CYAN out)))
    = Some w3
    /\ running (spinner w3) = false
    /\ halted (spinner w3) = true
    /\ color (spinner w3) = Colors.CYAN
    /\ message (spinner w3) = last_message m bs
    /\ calls w3 = Start :: map Update_message (updates_of bs)
                  ++ [Stop fm sym col]
    /\ exists pre, stdout w3 = out ++ pre
                               ++ stop_output (last_message m bs) fm sym col.
Proof.
  intros Hp.
  set (w2 := run_steps bs (start (fresh m Colors.CYAN out))).
  destruct (run_steps_frame bs (start (fresh m Colors.CYAN out)))
    as (Hm & Hc & Hr & Hl & evs & Ho).
  fold w2 in Hm, Hc, Hr, Hl, Ho. cbn in Hm, Hc, Hr, Hl, Ho.
  destruct (stop p fm sym col w2) as [w3|] eqn:Hs.
  - exists w3. split; [reflexivity|].
    destruct (stop_returned _ _ _ _ _ _ Hr Hs)
      as (Hr3 & Hh3 & Hm3 & Hc3 & Hl3 & bg & Ho3 & _).
    splits; try congruence.
    + rewrite Hl3, Hl. reflexivity.
    + exists (evs ++ bg). rewrite Ho3, Ho, Hm, <- !app_assoc. reflexivity.
  - rewrite stop_running in Hs by assumption. discriminate Hs.
Qed.

End ScopeFacts.

(** ** show_progress and UI.progress *)

Section Scopes.
Import Spinner Vocabulary SpinnerFacts StrFacts ScopeFacts.

Lemma count_updates (f : call -> bool) (us : list pystr) :
  (forall m, f (Update_message m) = false) ->
  count f (map Update_message us) = 0.
Proof.
  intros Hf. unfold count. induction us as [|u us IH]; [reflexivity|].
  cbn. rewrite Hf. exact IH.
Qed.

Lemma count_app (f : call -> bool) (a b : list call) :
  count f (a ++ b) = count f a + count f b.
Proof.
  unfold count. rewrite filter_app, length_app. reflexivity.
Qed.

(** The exit of [wrapper], as [scope_exit] has it for a block. *)
Lemma effects_exit (p : nat) (fm sym col m : pystr) (out : list event)
  (es : list effect) :
  6 <= p ->
  exists w3,
    stop p fm sym col (run_effects es (start (fresh m Colors.CYAN out)))
    = Some w3
    /\ running (spinner w3) = false
    /\ halted (spinner w3) = true
    /\ calls w3 = [Start; Stop fm sym col]
    /\ exists pre, stdout w3 = out ++ pre ++ stop_output m fm sym col.
Proof.
  intros Hp.
  destruct (scope_exit p fm sym col m out (map Do es) Hp)
    as (w3 & Hs & Hr & Hh & _ & _ & Hl & pre & Ho).
  rewrite run_steps_Do in Hs.
  unfold last_message in Ho. rewrite updates_of_Do in Hl, Ho.
  exists w3. splits; try assumption. exists pre. exact Ho.
Qed.

(** C3.  When the work returns, the scope calls [stop] once, with the
    success glyph and colour and with [success_message] if that is not
    empty, else with [message] in which every ["..."] is replaced by
    [" \u2713"]; a [message] without ["..."] is passed on as it is.
    ["Loading..."] gives ["Loading \u2713"], ["Loading data"] gives
    itself. *)
Theorem success_completion_text
  (Args R : Type) (m sm : pystr) (func : Args -> behaviour R) (args : Args)
  (r : R) (ui : UI.t) (body : block) (p : nat) (out : list event) :
  6 <= p ->
  result (func args) = Return r ->
  completion body = Return tt ->
  let text := match sm with
              | [] => replace (py "...") (SPACE :: CHECK) m
              | _ :: _ => sm
              end in
  (exists w pre,
     show_progress m sm func args p out = Some (w, Return r)
     /\ calls w = [Start; Stop text CHECK Colors.GREEN]
     /\ stdout w = out ++ pre ++ stop_output m text CHECK Colors.GREEN)
  /\ (exists ui' w pre,
       UI.progress ui m sm body p out = Some (ui', w, Return tt)
       /\ calls w = Start :: map Update_message (updates_of (steps body))
                    ++ [Stop text CHECK Colors.GREEN]
       /\ stdout w = out ++ pre
                     ++ stop_output (last_message m (steps body))
                                    text CHECK Colors.GREEN)
  /\ (contains (py "...") m = false ->
      replace (py "...") (SPACE :: CHECK) m = m)
  /\ success_msg (py "Loading...") [] = py "Loading" ++ SPACE :: CHECK
  /\ success_msg (py "Loading data") [] = py "Loading data".
Proof.
  intros Hp Hres Hcompl text.
  assert (Htext : success_msg m sm = text) by (destruct sm; reflexivity).
  splits.
  - unfold show_progress. rewrite Hres, Htext.
    destruct (effects_exit p text CHECK Colors.GREEN m out
                (effects (func args)) Hp)
      as (w3 & -> & _ & _ & Hl & pre & Ho).
    exists w3, pre. splits; [reflexivity | exact Hl | exact Ho].
  - unfold UI.progress. rewrite Hcompl, Htext.
    destruct (scope_exit p text CHECK Colors.GREEN m out (steps body) Hp)
      as (w3 & -> & _ & _ & _ & _ & Hl & pre & Ho).
    exists {| UI.current_spinner := None |}, w3, pre.
    splits; [reflexivity | exact Hl | exact Ho].
  - apply replace_absent.
  - reflexivity.
  - reflexivity.
Qed.

Lemma success_completion_text_witness :
  exists w pre,
    show_progress (py "Loading...") [] returns_42 tt 6 [] = Some (w, Return 42)
    /\ calls w = [Start; Stop (py "Loading" ++ SPACE :: CHECK)
                              CHECK Colors.GREEN]
    /\ stdout w = [] ++ pre
                  ++ stop_output (py "Loading...")
                       (py "Loading" ++ SPACE :: CHECK) CHECK Colors.GREEN.
Proof.
  apply (success_completion_text unit nat (py "Loading...") [] returns_42 tt
           42 UI.init loading 6 [] (le_n 6) eq_refl eq_refl).
Defined.

(** C10.  When [func(args)] returns [r], the wrapper made by
    [show_progress] cannot end otherwise than returning [r], and it does
    return once the animation thread is joined. *)
Theorem wrapper_returns_result
  (Args R : Type) (m sm : pystr) (func : Args -> behaviour R) (args : Args)
  (r : R) (p : nat) (out : list event) :
  result (func args) = Return r ->
  (forall w o, show_progress m sm func args p out = Some (w, o) ->
               o = Return r)
  /\ (6 <= p ->
      exists w, show_progress m sm func args p out = Some (w, Return r)).
Proof.
  intros Hres. split.
  - intros w o. unfold show_progress. rewrite Hres.
    destruct (stop _ _ _ _ _); [|discriminate].
    intros [= _ <-]. reflexivity.
  - intros Hp. unfold show_progress. rewrite Hres.
    destruct (effects_exit p (success_msg m sm) CHECK Colors.GREEN m out
                (effects (func args)) Hp) as (w3 & -> & _).
    exists w3. reflexivity.
Qed.

Lemma wrapper_returns_result_witness :
  exists w,
    show_progress (py "Planning tasks...") (py "Tasks planned")
                  returns_42 tt 6 [] = Some (w, Return 42).
Proof.
  apply (proj2 (wrapper_returns_result unit nat (py "Planning tasks...")
                  (py "Tasks planned") returns_42 tt 42 6 [] eq_refl)).
  apply le_n.
Defined.


(** C1, as the code has it.  When the work raises an instance [e] of
    [Exception] and [str(e)] returns, the scope calls [stop] with
    ["Failed: " + str(e)], the failure glyph and the failure colour, so
    that the stream ends with the clearing string and the line
    [RED \u2717 ENDC ' ' "Failed: " str(e)], the spinner is no longer
    running, and the scope ends raising that same exception object, and
    nothing else.  When the work raises something that is no [Exception],
    the scope ends at once raising that same object: [stop] is not called
    and the spinner is still running. *)
Theorem failure_is_reported_and_reraised
  (Args R : Type) (m sm : pystr) (func : Args -> behaviour R) (args : Args)
  (e : exn) (ui : UI.t) (body : block) (p : nat) (out : list event) :
  result (func args) = Raise e ->
  completion body = Raise e ->
  (is_Exception e = true ->
   str_raises (func args) = None -> block_str_raises body = None ->
   (forall w o, show_progress m sm func args p out = Some (w, o) ->
                o = Raise e)
   /\ (forall ui' w o, UI.progress ui m sm body p out = Some (ui', w, o) ->
                       o = Raise e)
   /\ (6 <= p ->
       (exists w pre,
          show_progress m sm func args p out = Some (w, Raise e)
          /\ running (spinner w) = false
          /\ calls w = [Start;
                        Stop (py "Failed: " ++ str e) CROSS Colors.RED]
          /\ stdout w =
             out ++ pre
             ++ [Write Fg (clear_line m);
                 Write Fg (Colors.RED ++ CROSS ++ Colors.ENDC ++ [SPACE]
                           ++ py "Failed: " ++ str e);
                 Write Fg [LF];
                 Flush Fg])
       /\ (exists ui' w pre,
            UI.progress ui m sm body p out = Some (ui', w, Raise e)
            /\ running (spinner w) = false
            /\ calls w = Start :: map Update_message (updates_of (steps body))
                         ++ [Stop (py "Failed: " ++ str e) CROSS Colors.RED]
            /\ stdout w =
               out ++ pre
               ++ [Write Fg (clear_line (last_message m (steps body)));
                   Write Fg (Colors.RED ++ CROSS ++ Colors.ENDC ++ [SPACE]
                             ++ py "Failed: " ++ str e);
                   Write Fg [LF];
                   Flush Fg])))
  /\ (is_Exception e = false ->
      (exists w,
         show_progress m sm func args p out = Some (w, Raise e)
         /\ running (spinner w) = true
         /\ calls w = [Start])
      /\ (exists ui' w,
           UI.progress ui m sm body p out = Some (ui', w, Raise e)
           /\ running (spinner w) = true
           /\ calls w = Start :: map Update_message
                                    (updates_of (steps body)))).
Proof.
  intros Hres Hcompl. split.
  - intros He Hsr Hbr. splits.
    + intros w o. unfold show_progress. rewrite Hres, He, Hsr.
      cbn [describe]. destruct (stop _ _ _ _ _); [|discriminate].
      intros [= _ <-]. reflexivity.
    + intros ui' w o. unfold UI.progress. rewrite Hcompl, He, Hbr.
      cbn [describe]. destruct (stop _ _ _ _ _); [|discriminate].
      intros [= _ _ <-]. reflexivity.
    + intros Hp. split.
      * unfold show_progress. rewrite Hres, He, Hsr. cbn [describe].
        destruct (effects_exit p (FAILED ++ str e) CROSS Colors.RED m out
                    (effects (func args)) Hp)
          as (w3 & -> & Hr & _ & Hl & pre & Ho).
        exists w3, pre.
        splits; [reflexivity | exact Hr | exact Hl | exact Ho].
      * unfold UI.progress. rewrite Hcompl, He, Hbr. cbn [describe].
        destruct (scope_exit p (FAILED ++ str e) CROSS Colors.RED m out
                    (steps body) Hp)
          as (w3 & -> & Hr & _ & _ & _ & Hl & pre & Ho).
        exists {| UI.current_spinner := None |}, w3, pre.
        splits; [reflexivity | exact Hr | exact Hl | exact Ho].
  - intros He. split.
    + unfold show_progress. rewrite Hres, He.
      eexists. split; [reflexivity|].
      rewrite <- run_steps_Do.
      destruct (run_steps_frame (map Do (effects (func args)))
                  (start (fresh m Colors.CYAN out)))
        as (_ & _ & Hr & Hl & _).
      rewrite Hl, updates_of_Do. split; [exact Hr | reflexivity].
    + unfold UI.progress. rewrite Hcompl, He.
      eexists. eexists. split; [reflexivity|].
      destruct (run_steps_frame (steps body)
                  (start (fresh m Colors.CYAN out)))
        as (_ & _ & Hr & Hl & _).
      split; [exact Hr | exact Hl].
Qed.

Lemma failure_is_reported_and_reraised_witness :
  exists ui' w pre,
    UI.progress UI.init (py "Loading...") [] loading_fails 6 []
    = Some (ui', w, Raise disk_full)
    /\ running (spinner w) = false
    /\ calls w = Start :: map Update_message (updates_of (steps loading_fails))
                 ++ [Stop (py "Failed: disk full") CROSS Colors.RED]
    /\ stdout w =
       [] ++ pre
       ++ [Write Fg (clear_line (py "Almost there..."));
           Write Fg (Colors.RED ++ CROSS ++ Colors.ENDC ++ [SPACE]
                     ++ py "Failed: disk full");
           Write Fg [LF];
           Flush Fg].
Proof.
  destruct (failure_is_reported_and_reraised unit nat (py "Loading...") []
              fails tt disk_full UI.init loading_fails 6 []
              eq_refl eq_refl) as [Hreported _].
  destruct (Hreported eq_refl eq_refl eq_refl) as (_ & _ & Hexit).
  apply (Hexit (le_n 6)).
Defined.

(** C1 as the claim has it fails: a block that raises a
    [KeyboardInterrupt] leaves the scope with the spinner still running;
    [stop] was not called, and the foreground wrote nothing, no
    ["Failed: ..."] line either. *)
Lemma interrupt_is_not_reported :
  exists ui' w,
    UI.progress UI.init (py "Loading...") [] loading_interrupted 6 []
    = Some (ui', w, Raise keyboard_interrupt)
    /\ running (spinner w) = true
    /\ count is_stop (calls w) = 0
    /\ filter is_fg (stdout w) = [].
Proof.
  eexists. eexists. splits; reflexivity.
Qed.

Lemma count_scope_log (us : list pystr) (c : call) :
  is_stop c = true ->
  count is_start (Start :: map Update_message us ++ [c]) = 1
  /\ count is_stop (Start :: map Update_message us ++ [c]) = 1.
Proof.
  intros Hc.
  change (Start :: map Update_message us ++ [c])
    with ([Start] ++ map Update_message us ++ [c]).
  rewrite !count_app, !count_updates by reflexivity.
  unfold count. cbn. rewrite Hc. destruct c; try discriminate Hc.
  split; reflexivity.
Qed.

(** C2, as the code has it.  Every activation invokes [start] exactly
    once.  When the work returns, or raises an instance [e] of [Exception]
    for which [str(e)] returns, the spinner sees, in this order: that one
    [start], the [update_message] calls of the work, however many, and one
    [stop], which is the success exit after a return and the failure exit
    after a raise; it is then no longer running and its thread has left.
    When the work raises something that is no [Exception], the spinner
    sees the [start], the [update_message] calls, and no [stop], and is
    still running. *)
Theorem start_and_stop_once
  (Args R : Type) (m sm : pystr) (func : Args -> behaviour R) (args : Args)
  (ui : UI.t) (body : block) (p : nat) (out : list event) :
  6 <= p ->
  (exists w o,
     show_progress m sm func args p out = Some (w, o)
     /\ count is_start (calls w) = 1
     /\ (reported (result (func args)) (str_raises (func args)) = true ->
         o = result (func args)
         /\ calls w = [Start; exit_call m sm (result (func args))]
         /\ count is_stop (calls w) = 1
         /\ running (spinner w) = false
         /\ halted (spinner w) = true)
     /\ (handled (result (func args)) = false ->
         o = result (func args)
         /\ calls w = [Start]
         /\ count is_stop (calls w) = 0
         /\ running (spinner w) = true))
  /\ (exists ui' w o,
       UI.progress ui m sm body p out = Some (ui', w, o)
       /\ count is_start (calls w) = 1
       /\ (reported (completion body) (block_str_raises body) = true ->
           o = completion body
           /\ calls w = Start :: map Update_message (updates_of (steps body))
                         ++ [exit_call m sm (completion body)]
           /\ count is_stop (calls w) = 1
           /\ running (spinner w) = false
           /\ halted (spinner w) = true)
       /\ (handled (completion body) = false ->
           o = completion body
           /\ calls w = Start :: map Update_message (updates_of (steps body))
           /\ count is_stop (calls w) = 0
           /\ running (spinner w) = true)).
Proof.
  intros Hp.
  assert (Hleft : forall bs,
            let w2 := run_steps bs (start (fresh m Colors.CYAN out)) in
            calls w2 = Start :: map Update_message (updates_of bs)
            /\ count is_start (calls w2) = 1
            /\ count is_stop (calls w2) = 0
            /\ running (spinner w2) = true).
  { intros bs w2.
    destruct (run_steps_frame bs (start (fresh m Colors.CYAN out)))
      as (_ & _ & Hr & Hl & _).
    fold w2 in Hr, Hl.
    cbn [start fresh calls invoked spinner app] in Hl.
    splits; [exact Hl | | | exact Hr]; rewrite Hl;
      change (Start :: map Update_message (updates_of bs))
        with ([Start] ++ map Update_message (updates_of bs));
      rewrite count_app, count_updates by reflexivity; reflexivity. }
  assert (Hexit : forall bs fm sym col,
            exists w3,
              stop p fm sym col
                   (run_steps bs (start (fresh m Colors.CYAN out)))
              = Some w3
              /\ calls w3 = Start :: map Update_message (updates_of bs)
                            ++ [Stop fm sym col]
              /\ count is_start (calls w3) = 1
              /\ count is_stop (calls w3) = 1
              /\ running (spinner w3) = false
              /\ halted (spinner w3) = true).
  { intros bs fm sym col.
    destruct (scope_exit p fm sym col m out bs Hp)
      as (w3 & Hs & Hr & Hh & _ & _ & Hl & _).
    destruct (count_scope_log (updates_of bs) (Stop fm sym col) eq_refl)
      as [Hc1 Hc2].
    exists w3. rewrite Hl. splits; first [assumption | reflexivity]. }
  split.
  - unfold show_progress. rewrite <- run_steps_Do.
    destruct (Hleft (map Do (effects (func args))))
      as (Hl & Hc1 & Hc0 & Hr).
    rewrite updates_of_Do in Hl. cbn [map] in Hl.
    destruct (result (func args)) as [r|e]; cbn [handled reported exit_call].
    + destruct (Hexit (map Do (effects (func args))) (success_msg m sm)
                  CHECK Colors.GREEN) as (w3 & -> & Hl3 & H1 & H2 & H3 & H4).
      rewrite updates_of_Do in Hl3. cbn [map app] in Hl3.
      exists w3. eexists.
      splits; [reflexivity | exact H1 | | discriminate].
      intros _. splits; try assumption; reflexivity.
    + destruct (is_Exception e) eqn:He.
      * destruct (str_raises (func args)) as [e2|]; cbn [describe].
        -- eexists. eexists.
           splits; [reflexivity | exact Hc1 | discriminate | discriminate].
        -- destruct (Hexit (map Do (effects (func args))) (FAILED ++ str e)
                       CROSS Colors.RED)
             as (w3 & -> & Hl3 & H1 & H2 & H3 & H4).
           rewrite updates_of_Do in Hl3. cbn [map app] in Hl3.
           exists w3. eexists.
           splits; [reflexivity | exact H1 | | discriminate].
           intros _. splits; try assumption; reflexivity.
      * eexists. eexists. splits; [reflexivity | exact Hc1 | |].
        -- destruct (str_raises (func args)); discriminate.
        -- intros _. splits; try assumption; reflexivity.
  - unfold UI.progress.
    destruct (Hleft (steps body)) as (Hl & Hc1 & Hc0 & Hr).
    destruct (completion body) as [[]|e]; cbn [handled reported exit_call].
    + destruct (Hexit (steps body) (success_msg m sm) CHECK Colors.GREEN)
        as (w3 & -> & Hl3 & H1 & H2 & H3 & H4).
      eexists. exists w3. eexists.
      splits; [reflexivity | exact H1 | | discriminate].
      intros _. splits; try assumption; reflexivity.
    + destruct (is_Exception e) eqn:He.
      * destruct (block_str_raises body) as [e2|]; cbn [describe].
        -- eexists. eexists. eexists.
           splits; [reflexivity | exact Hc1 | discriminate | discriminate].
        -- destruct (Hexit (steps body) (FAILED ++ str e) CROSS Colors.RED)
             as (w3 & -> & Hl3 & H1 & H2 & H3 & H4).
           eexists. exists w3. eexists.
           splits; [reflexivity | exact H1 | | discriminate].
           intros _. splits; try assumption; reflexivity.
      * eexists. eexists. eexists.
        splits; [reflexivity | exact Hc1 | |].
        -- destruct (block_str_raises body); discriminate.
        -- intros _. splits; try assumption; reflexivity.
Qed.

Lemma start_and_stop_once_witness :
  exists ui' w o,
    UI.progress UI.init (py "Loading...") [] loading 6 [] = Some (ui', w, o)
    /\ count is_start (calls w) = 1
    /\ o = Return tt
    /\ calls w = [Start; Update_message (py "Processing data...");
                  Update_message (py "Almost there...");
                  Stop (py "Loading" ++ SPACE :: CHECK) CHECK Colors.GREEN]
    /\ count is_stop (calls w) = 1
    /\ running (spinner w) = false
    /\ halted (spinner w) = true.
Proof.
  destruct (start_and_stop_once unit nat (py "Loading...") []
              returns_42 tt UI.init loading 6 [] (le_n 6))
    as [_ (ui' & w & o & Hs & Hc & Hrep & _)].
  exists ui', w, o. split; [exact Hs|]. split; [exact Hc|].
  apply (Hrep eq_refl).
Defined.

(** An instance of [Exception] whose [__str__] raises: the exception of
    [__str__] leaves the scope in place of the one the work raised, and
    [stop] is not called. *)
Example mute_error_skips_stop :
  exists w,
    show_progress (py "Planning tasks...") (py "Tasks planned")
                  fails_mute tt 6 []
    = Some (w, Raise type_error)
    /\ count is_start (calls w) = 1
    /\ count is_stop (calls w) = 0
    /\ running (spinner w) = true.
Proof.
  eexists. splits; reflexivity.
Qed.

(** C2 as the claim has it fails: a call that raises a
    [KeyboardInterrupt] leaves the wrapper with [start] invoked once and
    [stop] not at all, the spinner still running. *)
Lemma interrupt_skips_stop :
  exists w,
    show_progress (py "Planning tasks...") (py "Tasks planned")
                  interrupted tt 6 []
    = Some (w, Raise keyboard_interrupt)
    /\ count is_start (calls w) = 1
    /\ count is_stop (calls w) = 0
    /\ running (spinner w) = true.
Proof.
  eexists. splits; reflexivity.
Qed.

End Scopes.

(** ** Spinner.update_message *)

Module UpdateFacts.
Import Spinner Vocabulary SpinnerFacts StrFacts ScopeFacts.

Lemma frames_of_app (a b : list event) :
  frames_of (a ++ b) = frames_of a ++ frames_of b.
Proof.
  induction a as [|e a IH]; [reflexivity|].
  destruct e as [[|] s| |]; cbn; rewrite IH; reflexivity.
Qed.

Lemma frames_of_fg (evs : list event) :
  Forall (fun e => is_fg e = true) evs -> frames_of evs = [].
Proof.
  induction 1 as [|e evs He _ IH]; [reflexivity|].
  destruct e as [[|] s| |]; cbn in *; try discriminate He; exact IH.
Qed.

Lemma since_refl (w : World) : since w w.
Proof.
  unfold since. splits; try reflexivity. left. split; reflexivity.
Qed.

(** A step of the thread keeps [since]. *)
Lemma since_step (w v : World) : since w v -> since w (animate_step v).
Proof.
  intros (Hm & Hc & H).
  destruct (animate_step_frame v) as (Hm' & Hc' & _ & _ & _).
  unfold since. rewrite Hm', Hc'. clear Hm' Hc'.
  splits; try assumption. right.
  destruct H as [[Hth Hfr] | (Hset & stale & fresh & Hfr & Hlen & Hfl & Hall)].
  - (* nothing written since [w]: the thread is where it was in [w] *)
    break_world v. break_world w. cbn in *. subst.
    break_thread th0; cbn; try destruct run; cbn;
      rewrite ?frames_of_app; cbn; rewrite ?app_nil_r.
    all: split; [first [exact I | eexists; reflexivity]|].
    all: first
      [ exists [], []; rewrite app_nil_r;
        splits; [assumption | cbn; lia | reflexivity | constructor]
      | match goal with
        | |- context [frames_of _ ++ [?s]] =>
            exists [s], []; rewrite app_nil_r, Hfr;
            splits; [reflexivity | cbn; lia | discriminate | constructor]
        end ].
  - (* the thread writes only lines that show the message *)
    break_world v. cbn in *. subst.
    break_thread th; cbn; try destruct run; cbn;
      rewrite ?frames_of_app; cbn; rewrite ?app_nil_r.
    all: split; [first [exact I | eexists; reflexivity]|].
    all: first
      [ exists stale, fresh; splits; assumption
      | match goal with
        | |- context [frames_of _ ++ [?s]] =>
            exists stale, (fresh ++ [s]); rewrite Hfr, <- !app_assoc;
            splits; [reflexivity | assumption | assumption |];
            apply Forall_app; split; [exact Hall|];
            constructor; [exact Hset | constructor]
        end ].
Qed.

Lemma since_elapse (n : nat) (w v : World) :
  since w v -> since w (elapse n v).
Proof.
  revert v. induction n as [|n IH]; intros v H; [exact H|].
  cbn. apply IH, since_step, H.
Qed.

(** What the foreground does without touching the message keeps [since]:
    the thread and the frames only depend on the fields below. *)
Lemma since_foreground (w v v' : World) :
  since w v ->
  message (spinner v') = message (spinner v) ->
  color (spinner v') = color (spinner v) ->
  thread (spinner v') = thread (spinner v) ->
  frames_of (stdout v') = frames_of (stdout v) ->
  since w v'.
Proof.
  intros (Hm & Hc & H) Hm' Hc' Hth' Hfr'.
  unfold since, settled in *. rewrite Hm', Hc', Hth', Hfr'.
  splits; assumption.
Qed.

Lemma since_quiet (bs : list block_step) (w v : World) :
  quiet bs -> since w v -> since w (run_steps bs v).
Proof.
  revert v. induction bs as [|b bs IH]; intros v Hq H; [exact H|].
  change (run_steps (b :: bs) v) with (run_steps bs (run_step b v)).
  destruct b as [[n|s]|m]; [| |discriminate Hq]; apply IH; try exact Hq.
  - apply since_elapse, H.
  - apply (since_foreground w v); try reflexivity; [exact H|].
    cbn. rewrite frames_of_app, app_nil_r. reflexivity.
Qed.

(** [stop] keeps [since]. *)
Lemma since_stop (p : nat) (fm sym col : pystr) (w v v' : World) :
  since w v -> stop p fm sym col v = Some v' -> since w v'.
Proof.
  intros H. unfold stop. cbn [invoked spinner].
  destruct (running (spinner v)).
  - set (v1 := with_spinner _ _).
    assert (H1 : since w v1)
      by (apply (since_foreground w v); try reflexivity; exact H).
    assert (Hout : forall v2, since w v2 ->
              since w (emit (stop_output (message (spinner v2)) fm sym col)
                            v2)).
    { intros v2 H2. apply (since_foreground w v2); try reflexivity;
        [exact H2|].
      unfold emit. cbn [stdout].
      rewrite frames_of_app, (frames_of_fg (stop_output _ _ _ _)),
        app_nil_r; [reflexivity|].
      unfold stop_output, print. destruct (truthy fm); repeat constructor. }
    destruct (thread (spinner v1)).
    + destruct (join p v1) as [v2|] eqn:Hj; [|discriminate].
      destruct (join_elapse _ _ _ Hj) as [k ->].
      intros [= <-]. exact (Hout (elapse k v1) (since_elapse k w v1 H1)).
    + intros [= <-]. exact (Hout v1 H1).
  - intros [= <-]. apply (since_foreground w v); try reflexivity. exact H.
Qed.

End UpdateFacts.

(** *** The thread does render *)

Module LiveFacts.
Import Spinner Vocabulary SpinnerFacts StrFacts ScopeFacts UpdateFacts.

Lemma alike_step (v v' : World) :
  alike v v' -> alike (animate_step v) (animate_step v').
Proof.
  unfold alike. break_world v. break_world v'. cbn [spinner stdout].
  intros [[= -> -> -> ->] Hf].
  break_thread th0; cbn; try destruct run0; cbn;
    rewrite ?frames_of_app, ?Hf; split; reflexivity.
Qed.

Lemma alike_elapse (n : nat) (v v' : World) :
  alike v v' -> alike (elapse n v) (elapse n v').
Proof.
  revert v v'. induction n as [|n IH]; intros v v' H; [exact H|].
  cbn. apply IH, alike_step, H.
Qed.

Lemma elapse_plus (a b : nat) (w : World) :
  elapse (a + b) w = elapse b (elapse a w).
Proof.
  revert w. induction a as [|a IH]; intros w; cbn; [reflexivity | apply IH].
Qed.

(** What the foreground writes in between does not matter to the thread. *)
Lemma alike_quiet (bs : list block_step) (v v' : World) :
  quiet bs -> alike v v' ->
  alike (run_steps bs v) (elapse (thread_steps bs) v').
Proof.
  revert v v'. induction bs as [|b bs IH]; intros v v' Hq H; [exact H|].
  change (run_steps (b :: bs) v) with (run_steps bs (run_step b v)).
  destruct b as [[n|s]|m]; [| |discriminate Hq]; cbn [thread_steps run_step
                                                      run_effect].
  - rewrite elapse_plus. apply IH; [exact Hq | apply alike_elapse, H].
  - apply IH; [exact Hq|]. destruct H as [Hs Hf]. split; [exact Hs|].
    cbn. rewrite frames_of_app, app_nil_r. exact Hf.
Qed.

Lemma frames_of_stop_output (msg fm sym col : pystr) :
  frames_of (stop_output msg fm sym col) = [].
Proof.
  unfold stop_output, print. destruct (truthy fm); reflexivity.
Qed.

(** The frames [stop] leaves on a running spinner. *)
Lemma stop_frames (p : nat) (fm sym col : pystr) (v r : World) :
  running (spinner v) = true -> 6 <= p ->
  stop p fm sym col v = Some r ->
  frames_of (stdout r)
  = frames_of (stdout v) ++ frames_of (pending (spinner v)).
Proof.
  intros Hr Hp. rewrite stop_running by assumption. intros [= <-].
  cbn [stdout]. rewrite !frames_of_app, frames_of_stop_output, app_nil_r.
  reflexivity.
Qed.

Lemma alike_stop (p : nat) (fm sym col : pystr) (v v' r : World) :
  alike v v' -> running (spinner v) = true -> 6 <= p ->
  stop p fm sym col v = Some r ->
  exists r', stop p fm sym col v' = Some r'
             /\ frames_of (stdout r') = frames_of (stdout r).
Proof.
  intros [Hs Hf] Hr Hp Hstop.
  assert (Hr' : running (spinner v') = true) by (rewrite <- Hs; exact Hr).
  destruct (stop p fm sym col v') as [r'|] eqn:Hstop';
    [|rewrite stop_running in Hstop' by assumption; discriminate Hstop'].
  exists r'. split; [reflexivity|].
  rewrite (stop_frames _ _ _ _ _ _ Hr Hp Hstop),
          (stop_frames _ _ _ _ _ _ Hr' Hp Hstop'), Hs, Hf.
  reflexivity.
Qed.

(** A running spinner keeps its thread over a block. *)
Lemma alive_step (v : World) :
  running (spinner v) = true -> halted (spinner v) = false ->
  halted (spinner (animate_step v)) = false.
Proof.
  break_world v. cbn [spinner running]. intros ->.
  break_thread th; cbn; intros H; try discriminate H; reflexivity.
Qed.

Lemma alive_elapse (n : nat) (v : World) :
  running (spinner v) = true -> halted (spinner v) = false ->
  halted (spinner (elapse n v)) = false.
Proof.
  revert v. induction n as [|n IH]; intros v Hr Hh; [exact Hh|].
  cbn. apply IH; [|apply alive_step; assumption].
  destruct (animate_step_frame v) as (_ & _ & Hr' & _). congruence.
Qed.

Lemma alive_steps (bs : list block_step) (v : World) :
  running (spinner v) = true -> halted (spinner v) = false ->
  halted (spinner (run_steps bs v)) = false.
Proof.
  revert v. induction bs as [|b bs IH]; intros v Hr Hh; [exact Hh|].
  change (run_steps (b :: bs) v) with (run_steps bs (run_step b v)).
  destruct b as [[n|s]|m]; cbn [run_step run_effect]; apply IH.
  - destruct (elapse_frame n v) as (_ & _ & Hr' & _). congruence.
  - apply alive_elapse; assumption.
  - exact Hr.
  - exact Hh.
  - exact Hr.
  - exact Hh.
Qed.

(** Six steps of a live thread are one turn of the loop: one line is
    written, and the thread is back where it was. *)
Lemma six_steps (v : World) :
  running (spinner v) = true -> halted (spinner v) = false ->
  exists line,
    frames_of (stdout (elapse 6 v)) = frames_of (stdout v) ++ [line]
    /\ running (spinner (elapse 6 v)) = true
    /\ in_flight (spinner (elapse 6 v)) = in_flight (spinner v).
Proof.
  break_world v. cbn [spinner running]. intros ->.
  break_thread th; cbn [halted thread exited at_pc]; intros H;
    try discriminate H;
    cbv [elapse animate_step goto emit with_spinner set_thread
         spinner stdout calls message color running thread idx at_pc
         in_flight];
    rewrite !frames_of_app; cbn [frames_of]; rewrite ?app_nil_r;
    eexists; splits; reflexivity.
Qed.

(** Whatever follows, up to the return of [stop], adds frames, and writes
    the line the thread holds, if it holds one. *)
Lemma frames_grow (k p : nat) (fm sym col : pystr) (v : World) :
  running (spinner v) = true -> 6 <= p ->
  exists r more,
    stop p fm sym col (elapse k v) = Some r
    /\ frames_of (stdout r) = frames_of (stdout v) ++ more
    /\ (in_flight (spinner v) = true -> 1 <= length more).
Proof.
  intros Hr Hp. revert v Hr. induction k as [|k IH]; intros v Hr.
  - cbn [elapse].
    destruct (stop p fm sym col v) as [r|] eqn:Hs;
      [|rewrite stop_running in Hs by assumption; discriminate Hs].
    exists r, (frames_of (pending (spinner v))).
    splits; [reflexivity | apply (stop_frames _ _ _ _ _ _ Hr Hp Hs) |].
    break_world v. cbn [spinner]. break_thread th; cbn; intros H;
      try discriminate H; lia.
  - cbn [elapse].
    destruct (animate_step_frame v) as (_ & _ & Hr' & _).
    rewrite Hr in Hr'.
    destruct (IH (animate_step v) Hr') as (r & more & Hs & Hf & _).
    assert (Hstep : exists d,
              frames_of (stdout (animate_step v)) = frames_of (stdout v) ++ d
              /\ (in_flight (spinner v) = true -> 1 <= length d)).
    { break_world v. cbn [spinner running] in Hr. subst run.
      break_thread th; cbn; rewrite ?frames_of_app; cbn;
        eexists; (split; [try reflexivity; symmetry; apply app_nil_r|]);
        intros H; try discriminate H; cbn; lia. }
    destruct Hstep as (d & Hd & Hlen).
    exists r, (d ++ more). splits; [exact Hs | |].
    + rewrite Hf, Hd, app_assoc. reflexivity.
    + intros H. rewrite length_app. specialize (Hlen H). lia.
Qed.

(** After six steps or more of a live thread, [stop] finds at least one
    line written, and two if a line was held at the start. *)
Lemma frames_after_six (n p : nat) (fm sym col : pystr) (v : World) :
  running (spinner v) = true -> halted (spinner v) = false ->
  6 <= n -> 6 <= p ->
  exists r more,
    stop p fm sym col (elapse n v) = Some r
    /\ frames_of (stdout r) = frames_of (stdout v) ++ more
    /\ (if in_flight (spinner v) then 2 else 1) <= length more.
Proof.
  intros Hr Hh Hn Hp.
  replace n with (6 + (n - 6)) by lia. rewrite elapse_plus.
  destruct (six_steps v Hr Hh) as (line & Hf6 & Hr6 & Hfl6).
  destruct (frames_grow (n - 6) p fm sym col (elapse 6 v) Hr6 Hp)
    as (r & more & Hs & Hf & Hlen).
  exists r, (line :: more). splits; [exact Hs | |].
  - rewrite Hf, Hf6, <- app_assoc. reflexivity.
  - rewrite Hfl6 in Hlen. cbn [length].
    destruct (in_flight (spinner v)); [specialize (Hlen eq_refl)|]; lia.
Qed.

Lemma last_app_r (A : Type) (a b : list A) (d : A) :
  b <> [] -> last (a ++ b) d = last b d.
Proof.
  intros Hb. induction a as [|x a IH]; [reflexivity|].
  cbn [app]. destruct (a ++ b) eqn:Hab.
  - destruct a; [contradiction Hb | discriminate Hab].
  - rewrite <- IH. reflexivity.
Qed.

Lemma last_in (A : Type) (l : list A) (d : A) :
  l <> [] -> In (last l d) l.
Proof.
  induction l as [|x [|y l] IH]; intros H;
    [contradiction H; reflexivity | left; reflexivity |].
  right. apply IH. discriminate.
Qed.

(** Once the thread has made six steps after a point [v] where the
    message was left alone, a line that is not the one held at [v] has
    been written by the time [stop] returns. *)
Lemma fresh_exists (p : nat) (fm sym col : pystr) (post : list block_step)
  (v w3 : World) (stale fresh : list pystr) :
  running (spinner v) = true -> halted (spinner v) = false ->
  quiet post -> 6 <= thread_steps post -> 6 <= p ->
  stop p fm sym col (run_steps post v) = Some w3 ->
  frames_of (stdout w3) = frames_of (stdout v) ++ stale ++ fresh ->
  length stale <= 1 ->
  (in_flight (spinner v) = false -> stale = []) ->
  fresh <> [].
Proof.
  intros Hr Hh Hq Hn Hp Hs Hfr Hlen Hfl.
  assert (Hrun : running (spinner (run_steps post v)) = true).
  { destruct (run_steps_frame post v) as (_ & _ & H & _). congruence. }
  destruct (alike_stop p fm sym col _ _ _
              (alike_quiet post v v Hq (conj eq_refl eq_refl)) Hrun Hp Hs)
    as (r' & Hs' & Hf').
  destruct (frames_after_six (thread_steps post) p fm sym col v Hr Hh Hn Hp)
    as (r & more & Hsr & Hfm & Hcount).
  rewrite Hs' in Hsr. injection Hsr as <-.
  rewrite Hf', Hfr in Hfm. apply app_inv_head in Hfm.
  intros ->. rewrite app_nil_r in Hfm. subst more.
  destruct (in_flight (spinner v)).
  - lia.
  - rewrite (Hfl eq_refl) in Hcount. cbn in Hcount. lia.
Qed.

End LiveFacts.

Section Update.
Import Spinner Vocabulary SpinnerFacts StrFacts ScopeFacts UpdateFacts.
Import LiveFacts.

Lemma since_frames (w v : World) :
  since w v ->
  exists stale fresh,
    frames_of (stdout v) = frames_of (stdout w) ++ stale ++ fresh
    /\ length stale <= 1
    /\ (in_flight (spinner w) = false -> stale = [])
    /\ Forall (shows (color (spinner w)) (message (spinner w))) fresh.
Proof.
  intros (_ & _ & [[_ Hfr] | (_ & stale & fresh & H)]).
  - exists [], []. rewrite app_nil_r. splits;
      [exact Hfr | cbn; lia | reflexivity | constructor].
  - exists stale, fresh. exact H.
Qed.

(** C8.  Each [update_message] call replaces the message, so that after
    any sequence of steps of the enclosed work the message is the argument
    of the last call, or the one the work found if it made no call; [stop]
    leaves it so.  Of the frame lines written after the last call, up to
    the return of [stop], all are ['\r' color glyph ENDC ' '] followed by
    its argument, except at most one: the line the thread had already
    built when the call was made, if there was one.  And once the thread
    of the spinner has made six steps, one turn of its loop, after the
    last call, such a line has been written: the last line on the terminal
    when [stop] returns shows the argument of the last call.  With no call
    at all, the same holds for the message the work found. *)
Theorem last_update_wins
  (w0 : World) (bs : list block_step) (p : nat) (fm sym col : pystr) :
  running (spinner w0) = true -> 6 <= p ->
  (forall m w, message (spinner (update_message m w)) = m)
  /\ message (spinner (run_steps bs w0))
     = last_message (message (spinner w0)) bs
  /\ exists w3,
       stop p fm sym col (run_steps bs w0) = Some w3
       /\ message (spinner w3) = last_message (message (spinner w0)) bs
       /\ (forall pre m post,
             bs = pre ++ Call_update_message m :: post -> quiet post ->
             exists stale fresh,
               frames_of (stdout w3)
               = frames_of (stdout (run_steps pre w0)) ++ stale ++ fresh
               /\ length stale <= 1
               /\ (in_flight (spinner (run_steps pre w0)) = false ->
                   stale = [])
               /\ Forall (renders (color (spinner w0)) m) fresh
               /\ (halted (spinner w0) = false ->
                   6 <= thread_steps post ->
                   fresh <> []
                   /\ renders (color (spinner w0)) m
                              (last (frames_of (stdout w3)) [])))
       /\ (quiet bs ->
           exists stale fresh,
             frames_of (stdout w3) = frames_of (stdout w0) ++ stale ++ fresh
             /\ length stale <= 1
             /\ (in_flight (spinner w0) = false -> stale = [])
             /\ Forall (renders (color (spinner w0)) (message (spinner w0)))
                       fresh
             /\ (halted (spinner w0) = false ->
                 6 <= thread_steps bs ->
                 fresh <> []
                 /\ renders (color (spinner w0)) (message (spinner w0))
                            (last (frames_of (stdout w3)) []))).
Proof.
  intros Hr Hp.
  destruct (run_steps_frame bs w0) as (Hm & _ & Hrun & _).
  rewrite Hr in Hrun.
  splits; [reflexivity | exact Hm |].
  destruct (stop p fm sym col (run_steps bs w0)) as [w3|] eqn:Hs;
    [|rewrite stop_running in Hs by assumption; discriminate Hs].
  exists w3.
  destruct (stop_returned _ _ _ _ _ _ Hrun Hs) as (_ & _ & Hm3 & _).
  assert (Hlast : forall (before stale fresh : list pystr) c msg,
            frames_of (stdout w3) = before ++ stale ++ fresh ->
            Forall (renders c msg) fresh -> fresh <> [] ->
            renders c msg (last (frames_of (stdout w3)) [])).
  { intros before stale fresh c msg Hfr Hall Hne.
    rewrite Hfr, app_assoc, last_app_r by exact Hne.
    rewrite Forall_forall in Hall. apply Hall, last_in, Hne. }
  splits; [reflexivity | congruence | |].
  - intros pre m post -> Hq.
    unfold run_steps in Hs. rewrite fold_left_app in Hs.
    fold (run_steps pre w0) in Hs. cbn [fold_left run_step] in Hs.
    set (w := run_steps pre w0) in *.
    fold (run_steps post (update_message m w)) in Hs.
    pose proof (since_stop _ _ _ _ _ _ _
                  (since_quiet post _ _ Hq (since_refl (update_message m w)))
                  Hs) as Hsince.
    destruct (since_frames _ _ Hsince)
      as (stale & fresh & Hfr & Hlen & Hfl & Hall).
    destruct (run_steps_frame pre w0) as (_ & Hc & Hrw & _).
    fold w in Hc, Hrw. rewrite Hr in Hrw.
    cbn in Hfr, Hfl, Hall. rewrite Hc in Hall.
    exists stale, fresh. splits; try assumption.
    intros Hh Hn.
    assert (Hne : fresh <> []).
    { apply (fresh_exists p fm sym col post (update_message m w) w3
               stale fresh); try assumption.
      apply (alive_steps pre w0 Hr Hh). }
    split; [exact Hne | exact (Hlast _ _ _ _ _ Hfr Hall Hne)].
  - intros Hq.
    destruct (since_frames _ _
                (since_stop _ _ _ _ _ _ _
                   (since_quiet bs _ _ Hq (since_refl w0)) Hs))
      as (stale & fresh & Hfr & Hlen & Hfl & Hall).
    exists stale, fresh. splits; try assumption.
    intros Hh Hn.
    assert (Hne : fresh <> [])
      by (apply (fresh_exists p fm sym col bs w0 w3 stale fresh);
          assumption).
    split; [exact Hne | exact (Hlast _ _ _ _ _ Hfr Hall Hne)].
Qed.

Lemma last_update_wins_witness :
  exists w3,
    stop 6 (py "Done") CHECK Colors.GREEN
         (run_steps (steps loading)
                    (start (fresh (py "Loading...") Colors.CYAN [])))
    = Some w3
    /\ message (spinner w3) = py "Almost there..."
    /\ renders Colors.CYAN (py "Almost there...")
               (last (frames_of (stdout w3)) [])
    /\ frames_of (stdout w3)
       = [[CR] ++ Colors.CYAN ++ [10251%N] ++ Colors.ENDC
          ++ py " Loading...";
          [CR] ++ Colors.CYAN ++ [10265%N] ++ Colors.ENDC
          ++ py " Loading...";
          [CR] ++ Colors.CYAN ++ [10297%N] ++ Colors.ENDC
          ++ py " Almost there...";
          [CR] ++ Colors.CYAN ++ [10296%N] ++ Colors.ENDC
          ++ py " Almost there..."].
Proof.
  destruct (last_update_wins
              (start (fresh (py "Loading...") Colors.CYAN []))
              (steps loading) 6 (py "Done") CHECK Colors.GREEN
              eq_refl (le_n 6))
    as (_ & _ & w3 & Hs & Hm & Hlast & _).
  exists w3. split; [exact Hs|]. split; [exact Hm|].
  destruct (Hlast [Do (Elapse 9);
                   Call_update_message (py "Processing data...");
                   Do (Elapse 4)]
                  (py "Almost there...") [Do (Elapse 7)]
                  eq_refl eq_refl)
    as (stale & fresh & _ & _ & _ & _ & Hlive).
  split; [apply (Hlive eq_refl); cbn; lia|].
  vm_compute in Hs. injection Hs as <-. reflexivity.
Defined.

End Update.

(** ** Worked examples *)

Section Examples.
Import Spinner Vocabulary.

(** [str.replace] scans from the left and does not revisit what it has
    replaced. *)
Example replace_four_dots :
  replace (py "...") (py "X") (py "....") = py "X."
  /\ replace (py "...") (py "X") (py "a...b......") = py "aXbXX"
  /\ replace [] (py "-") (py "abc") = py "-a-b-c-".
Proof. repeat split; reflexivity. Qed.

(** [Spinner("Working...")], [start()], two frames, [stop("Done")]: what
    the terminal has received. *)
Example working_then_done :
  option_map (fun w => text_of (stdout w))
             (stop 6 (py "Done") CHECK Colors.GREEN working)
  = Some ([CR] ++ Colors.CYAN ++ [10251%N] ++ Colors.ENDC
          ++ py " Working..."
          ++ [CR] ++ Colors.CYAN ++ [10265%N] ++ Colors.ENDC
          ++ py " Working..."
          ++ [CR] ++ times SPACE 20 ++ [CR]
          ++ Colors.GREEN ++ CHECK ++ Colors.ENDC ++ py " Done" ++ [LF]).
Proof. reflexivity. Qed.

(** A caller that will not wait for the thread stays blocked in [stop]. *)
Example stop_blocks :
  stop 2 (py "Done") CHECK Colors.GREEN working = None.
Proof. reflexivity. Qed.

(** A message set while a line is in flight: that one line still shows the
    old message, the next one the new. *)
Example update_in_flight :
  frames_of (stdout (elapse 7 (update_message (py "new")
               (elapse 2 (start (fresh (py "old") Colors.CYAN []))))))
  = [frame_line Colors.CYAN 0 (py "old");
     frame_line Colors.CYAN 1 (py "new")].
Proof. reflexivity. Qed.

End Examples.

(** * Further properties of the code *)

(** ** The spinner over a whole session *)

Module SessionFacts.
Import Spinner Vocabulary Terms SpinnerFacts.

Lemma in_step_animate (w : World) :
  in_step (spinner w) -> in_step (spinner (animate_step w)).
Proof.
  unfold in_step. break_world w. break_thread th; cbn;
    try destruct run; cbn; intros H; try discriminate H; reflexivity.
Qed.

Lemma in_step_elapse (n : nat) (w : World) :
  in_step (spinner w) -> in_step (spinner (elapse n w)).
Proof.
  revert w. induction n as [|n IH]; intros w H; [exact H|].
  cbn. apply IH, in_step_animate, H.
Qed.

Lemma in_step_start (w : World) :
  in_step (spinner w) -> in_step (spinner (start w)).
Proof.
  unfold in_step, start. cbn [invoked spinner].
  destruct (running (spinner w)) eqn:Hr; cbn; intros H.
  - rewrite Hr. exact H.
  - reflexivity.
Qed.

Lemma in_step_stop (p : nat) (fm sym col : pystr) (w : World) :
  6 <= p -> in_step (spinner w) ->
  exists w', stop p fm sym col w = Some w' /\ in_step (spinner w').
Proof.
  intros Hp H. destruct (running (spinner w)) eqn:Hr.
  - destruct (stop p fm sym col w) as [w'|] eqn:Hs;
      [|rewrite stop_running in Hs by assumption; discriminate Hs].
    exists w'. split; [reflexivity|].
    destruct (stop_returned _ _ _ _ _ _ Hr Hs) as (Hr' & Hh' & _).
    unfold in_step. rewrite Hr', Hh'. reflexivity.
  - rewrite stop_idle by exact Hr. eexists. split; [reflexivity|]. exact H.
Qed.

Lemma text_of_app (a b : list event) :
  text_of (a ++ b) = text_of a ++ text_of b.
Proof.
  induction a as [|e a IH]; [reflexivity|].
  destruct e; cbn; rewrite IH, ?app_assoc; reflexivity.
Qed.

Lemma text_of_ticks (col msg : pystr) (n k : nat) :
  text_of (flat_map (tick_events col msg) (seq n k))
  = concat (map (fun i => frame_line col i msg) (seq n k)).
Proof.
  revert n. induction k as [|k IH]; intros n; [reflexivity|].
  cbn [seq flat_map map concat]. rewrite text_of_app, IH. cbn.
  rewrite app_nil_r. reflexivity.
Qed.

Lemma animation_S (col msg : pystr) (k : nat) :
  animation col msg (S k) = animation col msg k ++ frame_line col k msg.
Proof.
  unfold animation. rewrite seq_S, map_app, concat_app. cbn.
  rewrite app_nil_r. reflexivity.
Qed.

Lemma ceil_sixth (q r : nat) :
  r < 6 -> (6 * q + r + 5) / 6 = q + (if r =? 0 then 0 else 1).
Proof.
  intros Hr.
  replace (6 * q + r + 5) with (q * 6 + (r + 5)) by lia.
  rewrite Nat.div_add_l by discriminate.
  do 6 (destruct r as [|r]; [reflexivity|]). lia.
Qed.

(** A spinner left alone between [start] and [stop]: the terminal receives
    the frames of indices [0 .. k-1] in order, [k] being the passes of the
    loop that were begun, and then what [stop] writes. *)
Lemma undisturbed (n p : nat) (fm sym col : pystr) (w : World) :
  running (spinner w) = true -> at_tick 0 w -> 6 <= p ->
  exists w',
    stop p fm sym col (elapse n w) = Some w'
    /\ running (spinner w') = false
    /\ halted (spinner w') = true
    /\ text_of (stdout w')
       = text_of (stdout w)
         ++ animation (color (spinner w)) (message (spinner w)) ((n + 5) / 6)
         ++ text_of (stop_output (message (spinner w)) fm sym col).
Proof.
  intros Hr H0 Hp.
  assert (Hlt : n mod 6 < 6) by (apply Nat.mod_upper_bound; discriminate).
  pose proof (Nat.div_mod_eq n 6) as Hn.
  remember (n / 6) as q eqn:Hq. remember (n mod 6) as r eqn:Hrem.
  clear Hq Hrem. subst n.
  rewrite (ceil_sixth _ _ Hlt).
  rewrite elapse_add, (many_ticks q 0 w Hr H0).
  break_world w. cbn in Hr. subst run. clear H0.
  cbn [spinner stdout calls message color running thread set_thread
       Nat.add].
  do 6 (destruct r as [|r];
        [ cbv [elapse animate_step goto emit with_spinner set_thread
               spinner stdout calls message color running thread idx at_pc];
          rewrite stop_running by (first [reflexivity | assumption]);
          eexists; split; [reflexivity|];
          cbv [pending finished option_map halted exited set_thread
               set_running spinner stdout calls message color running
               thread idx at_pc Nat.eqb];
          splits; try reflexivity;
          rewrite ?text_of_app, text_of_ticks;
          fold (animation col0 msg q);
          rewrite ?Nat.add_0_r, ?Nat.add_1_r, ?animation_S;
          cbn [text_of app]; rewrite <- ?app_assoc, ?app_nil_r;
          reflexivity
        | ]).
  lia.
Qed.

End SessionFacts.

Section Sessions.
Import Spinner Vocabulary Terms SpinnerFacts SessionFacts.

(** X1.  Whatever sequence of [start], [stop], [update_message] and idle
    periods a new spinner goes through, every [stop] returns (the thread
    needs at most six steps to leave), and at the end the spinner is
    running exactly when its thread is inside [_animate]; its colour is
    still the one it was constructed with. *)
Theorem flag_and_thread_agree
  (p : nat) (script : list Script.action) (m col : pystr)
  (out : list event) :
  6 <= p ->
  exists w,
    Script.perform_all p script (fresh m col out) = Some w
    /\ running (spinner w) = negb (halted (spinner w))
    /\ color (spinner w) = col.
Proof.
  intros Hp.
  assert (H : forall w, in_step (spinner w) ->
            exists w', Script.perform_all p script w = Some w'
                       /\ in_step (spinner w')
                       /\ color (spinner w') = color (spinner w)).
  { induction script as [|a script IH]; intros w Hw.
    - exists w. splits; [reflexivity | exact Hw | reflexivity].
    - cbn [Script.perform_all].
      assert (Ha : exists w1, Script.perform p a w = Some w1
                              /\ in_step (spinner w1)
                              /\ color (spinner w1) = color (spinner w)).
      { destruct a as [|fm sym c|m'|n]; cbn [Script.perform].
        - eexists. splits; [reflexivity | apply in_step_start, Hw |].
          unfold start. cbn [invoked spinner].
          destruct (running (spinner w)); reflexivity.
        - destruct (in_step_stop p fm sym c w Hp Hw) as (w1 & Hs & H1).
          exists w1. splits; [exact Hs | exact H1 |].
          destruct (running (spinner w)) eqn:Hr.
          + apply (stop_returned _ _ _ _ _ _ Hr Hs).
          + rewrite stop_idle in Hs by exact Hr. injection Hs as <-.
            reflexivity.
        - eexists. splits; [reflexivity | exact Hw | reflexivity].
        - eexists. splits; [reflexivity | apply in_step_elapse, Hw |].
          apply elapse_frame. }
      destruct Ha as (w1 & -> & H1 & Hc1).
      destruct (IH w1 H1) as (w' & Hs & H' & Hc').
      exists w'. splits; [exact Hs | exact H' | congruence]. }
  destruct (H (fresh m col out) eq_refl) as (w & Hs & Hw & Hc).
  exists w. splits; [exact Hs | exact Hw | exact Hc].
Qed.

Lemma flag_and_thread_agree_witness :
  exists w,
    Script.perform_all 6 session (fresh (py "Working...") Colors.CYAN [])
    = Some w
    /\ running (spinner w) = negb (halted (spinner w))
    /\ color (spinner w) = Colors.CYAN.
Proof.
  apply (flag_and_thread_agree 6 session (py "Working...") Colors.CYAN []).
  apply le_n.
Defined.

(** X2.  [Agent.run] prints the choice, then the animation of
    ["Processing your input..."] from its first glyph on, one frame for
    each pass of the loop begun during the nap, then clears the line and
    prints the green tick with ["Processing complete!"]; it leaves the
    spinner stopped, its thread gone, and returns ["Processed: "] followed
    by the choice. *)
Theorem agent_run_output
  (result : pystr) (nap p : nat) (out : list event) :
  6 <= p ->
  exists w,
    Agent.run result nap p out = Some (w, py "Processed: " ++ result)
    /\ running (spinner w) = false
    /\ halted (spinner w) = true
    /\ text_of (stdout w)
       = text_of out
         ++ py "You have chosen: " ++ result ++ [LF]
         ++ animation Colors.CYAN (py "Processing your input...")
                      ((nap + 5) / 6)
         ++ [CR] ++ times SPACE 34 ++ [CR]
         ++ Colors.GREEN ++ CHECK ++ Colors.ENDC
         ++ py " Processing complete!" ++ [LF].
Proof.
  intros Hp. unfold Agent.run.
  set (out1 := out ++ _).
  destruct (undisturbed nap p (py "Processing complete!") CHECK
              (Colors.ESC :: py "[92m")
              (start (fresh (py "Processing your input...")
                            (Colors.ESC :: py "[96m") out1))
              eq_refl eq_refl Hp) as (w & -> & Hr & Hh & Ht).
  exists w. splits; [reflexivity | exact Hr | exact Hh |].
  rewrite Ht. subst out1. cbn [start fresh invoked spinner stdout running
                              init negb goto with_spinner set_thread
                              set_running message color].
  rewrite text_of_app. cbn [print text_of app].
  rewrite <- !app_assoc. reflexivity.
Qed.

Lemma agent_run_output_witness :
  exists w,
    Agent.run (py "sushi") 20 6 [] = Some (w, py "Processed: sushi")
    /\ running (spinner w) = false
    /\ halted (spinner w) = true
    /\ text_of (stdout w)
       = text_of []
         ++ py "You have chosen: " ++ py "sushi" ++ [LF]
         ++ animation Colors.CYAN (py "Processing your input...") 4
         ++ [CR] ++ times SPACE 34 ++ [CR]
         ++ Colors.GREEN ++ CHECK ++ Colors.ENDC
         ++ py " Processing complete!" ++ [LF].
Proof.
  apply (agent_run_output (py "sushi") 20 6 [] (le_n 6)).
Defined.

End Sessions.

(** ** Splitting and wrapping *)

Module BoxFacts.
Import Vocabulary Terms.
Import PyText.

Lemma split_scan_word (w cur s : pystr) :
  Forall (fun c => isspace c = false) w ->
  split_scan cur (w ++ s) = split_scan (cur ++ w) s.
Proof.
  intros Hw. revert cur. induction Hw as [|c w Hc _ IH]; intros cur.
  - rewrite app_nil_r. reflexivity.
  - cbn [app split_scan]. rewrite Hc, IH, <- app_assoc. reflexivity.
Qed.

(** Splitting words that were joined with spaces gives the words back. *)
Lemma split_spaced (ws : list pystr) :
  Forall word ws -> split (concat (map spaced ws)) = ws.
Proof.
  unfold split. induction 1 as [|w ws [Hne Hw] _ IH]; [reflexivity|].
  cbn [map concat]. unfold spaced at 1. rewrite <- app_assoc.
  rewrite (split_scan_word w [] _ Hw). cbn [app split_scan].
  change (isspace SPACE) with true. cbn iota.
  rewrite IH. destruct w; [contradiction Hne; reflexivity | reflexivity].
Qed.

Lemma split_scan_words (cur s : pystr) :
  Forall (fun c => isspace c = false) cur ->
  Forall word (split_scan cur s).
Proof.
  revert cur. induction s as [|c s IH]; intros cur Hcur; cbn [split_scan].
  - destruct cur; constructor; [|constructor].
    split; [discriminate | exact Hcur].
  - destruct (isspace c) eqn:Hc.
    + destruct cur; [apply IH; constructor|].
      constructor; [split; [discriminate | exact Hcur]|].
      apply IH. constructor.
    + apply IH. apply Forall_app. split; [exact Hcur|].
      constructor; [exact Hc | constructor].
Qed.

(** What [split] returns are words. *)
Lemma split_words (s : pystr) : Forall word (split s).
Proof.
  apply split_scan_words. constructor.
Qed.

(** A string of whitespace has no word. *)
Lemma split_blank (s : pystr) :
  Forall (fun c => isspace c = true) s -> split s = [].
Proof.
  unfold split. induction 1 as [|c s Hc _ IH]; [reflexivity|].
  cbn [split_scan]. rewrite Hc. exact IH.
Qed.

Lemma spaced_truthy (g : list pystr) :
  Forall word g -> g <> [] -> truthy (concat (map spaced g)) = true.
Proof.
  intros Hg Hne. destruct g as [|w g]; [contradiction Hne; reflexivity|].
  inversion Hg as [|? ? [Hw _] _]; subst.
  destruct w; [contradiction Hw; reflexivity | reflexivity].
Qed.

(** The line that is left, printed if it is not empty (line 342). *)
Lemma wrap_loop_words (words g : list pystr) :
  Forall word (g ++ words) ->
  flat_map split
    (fst (UI.wrap_loop (concat (map spaced g)) words)
     ++ (if truthy (snd (UI.wrap_loop (concat (map spaced g)) words))
         then [snd (UI.wrap_loop (concat (map spaced g)) words)]
         else []))
  = g ++ words.
Proof.
  revert g. induction words as [|w words IH]; intros g Hall.
  - cbn [UI.wrap_loop fst snd app]. rewrite app_nil_r in *.
    destruct g as [|w0 g]; [reflexivity|].
    rewrite spaced_truthy by (assumption || discriminate).
    cbn [flat_map]. rewrite app_nil_r. apply split_spaced, Hall.
  - cbn [UI.wrap_loop].
    destruct (_ <=? _).
    + replace (concat (map spaced g) ++ w ++ [SPACE])
        with (concat (map spaced (g ++ [w])))
        by (rewrite map_app, concat_app; cbn; rewrite app_nil_r;
            reflexivity).
      rewrite IH by (rewrite <- app_assoc; exact Hall).
      rewrite <- app_assoc. reflexivity.
    + apply Forall_app in Hall. destruct Hall as [Hg Hws].
      specialize (IH [w]). cbn [map concat app] in IH.
      rewrite app_nil_r in IH.
      change (spaced w) with (w ++ [SPACE]) in IH.
      destruct (UI.wrap_loop (w ++ [SPACE]) words) as [printed left].
      cbn [fst snd] in *.
      rewrite <- app_assoc, flat_map_app, IH by exact Hws.
      f_equal. destruct g as [|w0 g]; [reflexivity|].
      rewrite spaced_truthy by (assumption || discriminate).
      cbn [flat_map]. rewrite app_nil_r. apply split_spaced, Hg.
Qed.

End BoxFacts.

Module WrapFacts.
Import Vocabulary Terms BoxFacts.
Import PyText.

(** Every line the loop prints or is left with is made of whole words,
    each followed by one space. *)
Lemma wrap_loop_lines (words g : list pystr) :
  Forall word (g ++ words) ->
  Forall (fun l => exists h, Forall word h /\ l = concat (map spaced h))
         (fst (UI.wrap_loop (concat (map spaced g)) words)
          ++ [snd (UI.wrap_loop (concat (map spaced g)) words)]).
Proof.
  revert g. induction words as [|w words IH]; intros g Hall.
  - cbn [UI.wrap_loop fst snd app]. rewrite app_nil_r in Hall.
    constructor; [|constructor]. exists g. split; [exact Hall | reflexivity].
  - cbn [UI.wrap_loop].
    destruct (_ <=? _).
    + replace (concat (map spaced g) ++ w ++ [SPACE])
        with (concat (map spaced (g ++ [w])))
        by (rewrite map_app, concat_app; cbn; rewrite app_nil_r;
            reflexivity).
      apply IH. rewrite <- app_assoc. exact Hall.
    + apply Forall_app in Hall. destruct Hall as [Hg Hws].
      specialize (IH [w]). cbn [map concat app] in IH.
      rewrite app_nil_r in IH.
      change (spaced w) with (w ++ [SPACE]) in IH.
      destruct (UI.wrap_loop (w ++ [SPACE]) words) as [printed left].
      cbn [fst snd] in *. rewrite <- app_assoc.
      apply Forall_app. split; [|apply IH, Hws].
      destruct (truthy _); constructor; [|constructor].
      exists g. split; [exact Hg | reflexivity].
Qed.

Lemma Forall_equiv (A : Type) (P Q : A -> Prop) (l : list A) :
  (forall x, P x <-> Q x) -> (Forall P l <-> Forall Q l).
Proof.
  intros H. split; apply Forall_impl; intros x; apply H.
Qed.

Lemma length_ljust (n : nat) (s : pystr) :
  length (ljust n s) = Nat.max n (length s).
Proof.
  unfold ljust. rewrite length_app, repeat_length. lia.
Qed.

Lemma length_text_inner (l : pystr) :
  length (UI.text_inner l) = UI.width - 2 <-> length l <= 76.
Proof.
  unfold UI.text_inner. rewrite !length_app, length_ljust.
  change (UI.width - 4) with 76. change (UI.width - 2) with 78.
  cbn [length]. lia.
Qed.

(** The lines of the loop fit the box exactly when the line it starts from
    does and no word is longer than 75 characters. *)
Lemma wrap_loop_fits (words : list pystr) (cur : pystr) :
  Forall (fun l => length l <= 76)
         (fst (UI.wrap_loop cur words) ++ [snd (UI.wrap_loop cur words)])
  <-> length cur <= 76 /\ Forall (fun w => length w <= 75) words.
Proof.
  revert cur. induction words as [|w words IH]; intros cur.
  - cbn [UI.wrap_loop fst snd app]. split.
    + intros H. inversion H; subst. split; [assumption | constructor].
    + intros [H _]. constructor; [exact H | constructor].
  - cbn [UI.wrap_loop].
    destruct (_ <=? _) eqn:Hfit.
    + apply Nat.leb_le in Hfit. cbn in Hfit.
      rewrite IH, !length_app. cbn [length]. split.
      * intros [_ Hws]. split; [lia|]. constructor; [lia | exact Hws].
      * intros [_ Hws]. inversion Hws; subst. split; [lia | assumption].
    + specialize (IH (w ++ [SPACE])). rewrite length_app in IH.
      cbn [length] in IH.
      destruct (UI.wrap_loop (w ++ [SPACE]) words) as [printed left].
      cbn [fst snd] in *. rewrite <- app_assoc, Forall_app, IH. split.
      * intros [Hcur [Hw Hws]]. split.
        -- destruct cur; [cbn; lia|]. cbn [truthy] in Hcur.
           inversion Hcur; subst. assumption.
        -- constructor; [lia | exact Hws].
      * intros [Hcur Hws]. inversion Hws; subst. split.
        -- destruct (truthy cur); constructor; [exact Hcur | constructor].
        -- split; [lia | assumption].
Qed.

Lemma wrap_fits (line : pystr) :
  Forall (fun l => length l <= 76) (UI.wrap line)
  <-> Forall (fun w => length w <= 75) (split line).
Proof.
  unfold UI.wrap.
  pose proof (wrap_loop_fits (split line) []) as H.
  destruct (UI.wrap_loop [] (split line)) as [printed left].
  cbn [fst snd] in H.
  assert (Hflush : Forall (fun l => length l <= 76)
                     (printed ++ (if truthy left then [left] else []))
                   <-> Forall (fun l => length l <= 76) (printed ++ [left])).
  { rewrite !Forall_app. destruct left as [|c left]; cbn [truthy].
    - split; intros [Hp _]; (split; [exact Hp|]);
        [constructor; [cbn; lia | constructor] | constructor].
    - reflexivity. }
  rewrite Hflush, H. cbn [length]. split.
  - intros [_ Hws]. exact Hws.
  - intros Hws. split; [lia | exact Hws].
Qed.

(** The loop prints no empty line (the test of line 339). *)
Lemma wrap_loop_printed (words : list pystr) (cur : pystr) :
  Forall (fun l => l <> []) (fst (UI.wrap_loop cur words)).
Proof.
  revert cur. induction words as [|w words IH]; intros cur;
    cbn [UI.wrap_loop]; [constructor|].
  destruct (_ <=? _); [apply IH|].
  specialize (IH (w ++ [SPACE])).
  destruct (UI.wrap_loop (w ++ [SPACE]) words) as [printed left].
  cbn [fst] in *. apply Forall_app. split; [|exact IH].
  destruct cur; constructor; [discriminate | constructor].
Qed.

End WrapFacts.

Section Box.
Import Vocabulary Terms BoxFacts WrapFacts.
Import PyText.

(** X3.  The wrapping of [print_answer] neither loses, nor breaks, nor
    reorders a word: the words of the lines it prints for a line of the
    answer are, in order, the words of that line, and each printed line is
    not empty and consists of whole words, each followed by one space. *)
Theorem wrap_keeps_words (line : pystr) :
  flat_map split (UI.wrap line) = split line
  /\ Forall (fun l => l <> [] /\ l = concat (map spaced (split l)))
            (UI.wrap line).
Proof.
  unfold UI.wrap.
  pose proof (wrap_loop_words (split line) [] (split_words line)) as Hw.
  pose proof (wrap_loop_lines (split line) [] (split_words line)) as Hl.
  pose proof (wrap_loop_printed (split line) []) as Hp.
  cbn [map concat app] in Hw, Hl.
  destruct (UI.wrap_loop [] (split line)) as [printed left].
  cbn [fst snd] in *. split; [exact Hw|].
  apply Forall_app in Hl. destruct Hl as [Hl1 Hl2].
  assert (Hunits : forall l,
            (exists h, Forall word h /\ l = concat (map spaced h)) ->
            l = concat (map spaced (split l))).
  { intros l (h & Hh & ->). rewrite split_spaced by exact Hh. reflexivity. }
  apply Forall_app. split.
  - rewrite Forall_forall in *. intros l Hin.
    split; [apply Hp, Hin | apply Hunits, Hl1, Hin].
  - destruct left as [|c left]; cbn [truthy]; constructor; [|constructor].
    split; [discriminate|]. apply Hunits. inversion Hl2; subst; assumption.
Qed.

(** X4.  Every row [print_answer] prints for the answer is exactly
    [width - 2] = 78 characters wide between the borders if and only if no
    word of the answer is longer than 75 characters: [ljust] pads short
    lines and leaves longer ones as they are, so that a longer word pushes
    the right border out. *)
Theorem box_is_rectangular (answer : pystr) :
  Forall (fun inner => length inner = UI.width - 2) (UI.answer_inners answer)
  <-> Forall (fun w => length w <= 75)
             (flat_map split (split_on LF answer)).
Proof.
  unfold UI.answer_inners. rewrite !Forall_flat_map.
  apply Forall_equiv. intros line. unfold UI.line_inners.
  destruct (length line =? 0) eqn:Hlen.
  - apply Nat.eqb_eq in Hlen. destruct line; [|discriminate Hlen].
    split; intros _; [constructor|].
    constructor; [|constructor]. unfold UI.blank_inner, times.
    apply repeat_length.
  - rewrite Forall_map, <- wrap_fits.
    apply Forall_equiv. intros l. apply length_text_inner.
Qed.

(** X5.  A line of the answer that holds only whitespace gives no row at
    all, while an empty line gives one empty row. *)
Theorem blank_line_vanishes (line : pystr) :
  Forall (fun c => isspace c = true) line ->
  UI.line_inners line =
  match line with
  | [] => [times SPACE 78]
  | _ :: _ => []
  end.
Proof.
  intros Hws. unfold UI.line_inners, UI.wrap.
  destruct line as [|c line]; [reflexivity|].
  rewrite (split_blank _ Hws). reflexivity.
Qed.

Lemma blank_line_vanishes_witness :
  UI.line_inners blanks = [] /\ UI.line_inners [] = [times SPACE 78].
Proof.
  split.
  - apply (blank_line_vanishes blanks). repeat constructor.
  - apply (blank_line_vanishes []). constructor.
Defined.

End Box.

(** ** The success text derived from the message *)

Module DotsFacts.
Import Vocabulary StrFacts.

Lemma dots_match (s : pystr) :
  startswith DOTS s = true -> exists r, s = (46 :: 46 :: 46 :: r)%N.
Proof.
  change DOTS with [46; 46; 46]%N.
  destruct s as [|a [|b [|c r]]]; cbn [startswith]; try discriminate;
    rewrite ?andb_false_r; try discriminate.
  intros H. apply andb_prop in H. destruct H as [Ha H].
  apply andb_prop in H. destruct H as [Hb H].
  apply andb_prop in H. destruct H as [Hc _].
  apply N.eqb_eq in Ha, Hb, Hc. subst. exists r. reflexivity.
Qed.

Lemma scan_match (r : pystr) :
  replace_scan 0 DOTS TICKED (46 :: 46 :: 46 :: r)%N
  = TICKED ++ replace_scan 0 DOTS TICKED r.
Proof. reflexivity. Qed.

Lemma scan_other (c : N) (s : pystr) :
  startswith DOTS (c :: s) = false ->
  replace_scan 0 DOTS TICKED (c :: s) = c :: replace_scan 0 DOTS TICKED s.
Proof.
  intros H. cbn [replace_scan]. rewrite H. reflexivity.
Qed.

(** The result starts with a dot only where the message does. *)
Lemma scan_dot (s : pystr) :
  startswith [46%N] (replace_scan 0 DOTS TICKED s) = true ->
  startswith [46%N] s = true.
Proof.
  destruct s as [|c s]; [discriminate|].
  destruct (startswith DOTS (c :: s)) eqn:Hm.
  - destruct (dots_match _ Hm) as [r ->]. rewrite scan_match. discriminate.
  - rewrite (scan_other _ _ Hm). trivial.
Qed.

Lemma scan_two_dots (s : pystr) :
  startswith [46; 46]%N (replace_scan 0 DOTS TICKED s) = true ->
  startswith [46; 46]%N s = true.
Proof.
  destruct s as [|c s]; [discriminate|].
  destruct (startswith DOTS (c :: s)) eqn:Hm.
  - destruct (dots_match _ Hm) as [r ->]. rewrite scan_match. discriminate.
  - rewrite (scan_other _ _ Hm). cbn [startswith].
    intros H. apply andb_prop in H. destruct H as [Hc H].
    rewrite Hc. cbn [andb]. apply scan_dot in H. exact H.
Qed.

(** No ["..."] is left in the message once they are replaced. *)
Lemma scan_no_dots (n : nat) (s : pystr) :
  length s <= n -> contains DOTS (replace_scan 0 DOTS TICKED s) = false.
Proof.
  revert s. induction n as [|n IH]; intros s Hlen.
  - destruct s; [reflexivity | cbn in Hlen; lia].
  - destruct s as [|c s]; [reflexivity|].
    destruct (startswith DOTS (c :: s)) eqn:Hm.
    + destruct (dots_match _ Hm) as [r Hr]. injection Hr as -> ->.
      rewrite scan_match.
      change (contains DOTS (TICKED ++ replace_scan 0 DOTS TICKED r))
        with (contains DOTS (replace_scan 0 DOTS TICKED r)).
      apply IH. cbn in Hlen. lia.
    + rewrite (scan_other _ _ Hm). cbn [contains].
      rewrite (IH s) by (cbn in Hlen; lia). rewrite orb_false_r.
      destruct (startswith DOTS (c :: replace_scan 0 DOTS TICKED s)) eqn:Hd;
        [|reflexivity].
      change DOTS with [46; 46; 46]%N in Hd, Hm. cbn [startswith] in Hd, Hm.
      apply andb_prop in Hd. destruct Hd as [Hc Hd].
      apply scan_two_dots in Hd. cbn [startswith] in Hd.
      rewrite Hc, Hd in Hm. discriminate Hm.
Qed.

End DotsFacts.

Section Dots.
Import Vocabulary StrFacts DotsFacts.

(** X6.  The success text that a scope derives from its message (no
    [success_message] given) never contains ["..."], and deriving it again
    from that text changes nothing. *)
Theorem derived_text_has_no_dots (message : pystr) :
  contains (py "...") (success_msg message []) = false
  /\ success_msg (success_msg message []) [] = success_msg message [].
Proof.
  assert (H : contains DOTS (success_msg message []) = false)
    by (apply (scan_no_dots (length message)), le_n).
  split; [exact H|].
  unfold success_msg at 1. cbn [py_or truthy].
  apply replace_absent. exact H.
Qed.

End Dots.

(** ** print_tool_run and Logger._log *)

Section ToolAndLog.
Import Vocabulary Terms SpinnerFacts SessionFacts.

(** X7.  [print_tool_run] shows at most the first 150 characters of the
    result: what it prints for a result is what it prints for these 150
    characters, and is never longer than 186 characters, line end
    included.  A result that is not empty and no longer than 150
    characters is shown whole, and is still followed by ["..."]. *)
Theorem tool_result_is_cut (result : pystr) :
  UI.print_tool_run result = UI.print_tool_run (PyText.upto 150 result)
  /\ length (text_of (UI.print_tool_run result)) <= 186
  /\ (result <> [] -> length result <= 150 ->
      UI.result_display result
      = [SPACE] ++ Colors.DIM ++ py "(" ++ result ++ py "...)"
        ++ Colors.ENDC).
Proof.
  splits.
  - unfold UI.print_tool_run, UI.result_display, PyText.upto.
    rewrite firstn_firstn. change (Nat.min 150 150) with 150.
    destruct result as [|c result]; reflexivity.
  - unfold UI.print_tool_run, UI.result_display, print, PyText.upto.
    cbn [text_of]. destruct result as [|c result]; [cbn; lia|].
    cbn [truthy length Nat.ltb Nat.leb andb].
    rewrite !length_app, length_firstn.
    change (length Colors.DIM) with 4. change (length Colors.ENDC) with 4.
    change (length Colors.YELLOW) with 5.
    change (length (py "  ")) with 2. change (length (py " Result: ")) with 9.
    change (length (py "(")) with 1. change (length (py "...)")) with 4.
    cbn [length]. lia.
  - intros Hne Hlen. unfold UI.result_display, PyText.upto.
    rewrite firstn_all2 by exact Hlen.
    destruct result; [contradiction Hne; reflexivity | reflexivity].
Qed.

Lemma tool_result_is_cut_witness :
  UI.result_display (py "ok")
  = [SPACE] ++ Colors.DIM ++ py "(" ++ py "ok" ++ py "...)" ++ Colors.ENDC.
Proof.
  apply (tool_result_is_cut (py "ok")).
  - discriminate.
  - cbn. lia.
Defined.

(** X8.  After any sequence of [_log] calls on a new logger, the log holds
    the messages in the order of the calls, and the terminal has received
    exactly the messages of the log, each followed by a line end. *)
Theorem log_matches_output (msgs : list pystr) :
  Logger.log (fst (fold_left (fun st m => Logger._log m st) msgs
                             (Logger.init, [])))
  = msgs
  /\ text_of (snd (fold_left (fun st m => Logger._log m st) msgs
                             (Logger.init, [])))
     = concat (map (fun m => m ++ [LF]) msgs).
Proof.
  assert (H : forall st,
            Logger.log (fst (fold_left (fun st m => Logger._log m st) msgs st))
            = Logger.log (fst st) ++ msgs
            /\ text_of (snd (fold_left (fun st m => Logger._log m st) msgs st))
               = text_of (snd st) ++ concat (map (fun m => m ++ [LF]) msgs)).
  { induction msgs as [|m msgs IH]; intros st.
    - cbn. rewrite !app_nil_r. split; reflexivity.
    - cbn [fold_left map concat]. destruct (IH (Logger._log m st)) as [Hl Ht].
      rewrite Hl, Ht. destruct st as [lg out]. cbn [Logger._log fst snd].
      cbn [Logger.log]. rewrite !text_of_app. cbn [print text_of].
      rewrite <- !app_assoc. split; reflexivity. }
  destruct (H (Logger.init, [])) as [Hl Ht]. split; assumption.
Qed.

End ToolAndLog.

(** ** The wrapping is greedy *)

Module GreedyFacts.
Import Vocabulary Terms BoxFacts WrapFacts.
Import PyText.

Lemma adjacent_app_l (A : Type) (R : A -> A -> Prop) (a b : list A) :
  adjacent R (a ++ b) -> adjacent R a.
Proof.
  induction a as [|x [|y a] IH]; cbn; trivial.
  intros [Hxy H]. split; [exact Hxy | apply IH, H].
Qed.

Lemma spaced_snoc (g : list pystr) (w : pystr) :
  concat (map spaced g) ++ w ++ [SPACE] = concat (map spaced (g ++ [w])).
Proof.
  rewrite map_app, concat_app. cbn. rewrite app_nil_r. reflexivity.
Qed.

(** The lines of the loop, the one it is left with included: the first
    one continues the line the loop starts from, and a line is closed only
    when the next word has no room on it. *)
Lemma wrap_loop_greedy (words g : list pystr) :
  Forall word (g ++ words) ->
  (exists h, Forall word (g ++ h)
             /\ hd [] (fst (UI.wrap_loop (concat (map spaced g)) words)
                       ++ [snd (UI.wrap_loop (concat (map spaced g)) words)])
                = concat (map spaced (g ++ h)))
  /\ adjacent no_room
       (fst (UI.wrap_loop (concat (map spaced g)) words)
        ++ [snd (UI.wrap_loop (concat (map spaced g)) words)]).
Proof.
  revert g. induction words as [|w words IH]; intros g Hall.
  - cbn [UI.wrap_loop fst snd app hd adjacent]. split; [|exact I].
    exists []. split; [exact Hall | rewrite app_nil_r; reflexivity].
  - cbn [UI.wrap_loop].
    destruct (_ <=? _) eqn:Hfit.
    + rewrite spaced_snoc.
      destruct (IH (g ++ [w])) as ((h & Hh & Hhd) & Hadj);
        [rewrite <- app_assoc; exact Hall|].
      split; [|exact Hadj].
      exists (w :: h). rewrite <- app_assoc in Hh, Hhd.
      split; [exact Hh | exact Hhd].
    + apply Nat.leb_gt in Hfit.
      pose proof Hall as Hall'.
      apply Forall_app in Hall. destruct Hall as [Hg Hws].
      destruct (IH [w] Hws) as ((h & Hh & Hhd) & Hadj).
      cbn [map concat app] in Hhd, Hadj. rewrite app_nil_r in Hhd, Hadj.
      change (spaced w) with (w ++ [SPACE]) in Hhd, Hadj.
      destruct (UI.wrap_loop (w ++ [SPACE]) words) as [printed left].
      cbn [fst snd] in *. rewrite <- app_assoc.
      destruct g as [|w0 g].
      * cbn [map concat truthy app]. split; [|exact Hadj].
        exists (w :: h). split; [exact Hh | exact Hhd].
      * rewrite spaced_truthy by (assumption || discriminate).
        cbn [app hd]. split.
        -- exists []. rewrite app_nil_r. split; [exact Hg | reflexivity].
        -- destruct (printed ++ [left]) as [|first rest] eqn:HL;
             [destruct printed; discriminate HL|].
           cbn [adjacent]. split; [|exact Hadj].
           cbn [hd] in Hhd. intros w1 ws1 Hsplit.
           rewrite Hhd in Hsplit.
           change (split (concat (map spaced (w :: h))) = w1 :: ws1)
             in Hsplit.
           rewrite split_spaced in Hsplit by exact Hh.
           injection Hsplit as <- _. exact Hfit.
Qed.

(** A line of the loop is at most [width - 6] characters long, unless it
    holds a single word. *)
Lemma wrap_loop_short (words : list pystr) (cur : pystr) :
  Forall word words ->
  (length cur <= UI.width - 6 \/ exists w, word w /\ cur = w ++ [SPACE]) ->
  Forall (fun l => length l <= UI.width - 6
                   \/ exists w, word w /\ l = w ++ [SPACE])
         (fst (UI.wrap_loop cur words) ++ [snd (UI.wrap_loop cur words)]).
Proof.
  revert cur. induction words as [|w words IH]; intros cur Hws Hcur.
  - cbn [UI.wrap_loop fst snd app]. constructor; [exact Hcur | constructor].
  - inversion Hws as [|? ? Hw Hws']; subst. cbn [UI.wrap_loop].
    destruct (_ <=? _) eqn:Hfit.
    + apply IH; [exact Hws'|]. left. apply Nat.leb_le in Hfit.
      rewrite !length_app. cbn [length]. lia.
    + specialize (IH (w ++ [SPACE]) Hws'
                     (or_intror (ex_intro _ w (conj Hw eq_refl)))).
      destruct (UI.wrap_loop (w ++ [SPACE]) words) as [printed left].
      cbn [fst snd] in *. rewrite <- app_assoc.
      apply Forall_app. split; [|exact IH].
      destruct (truthy cur); constructor; [exact Hcur | constructor].
Qed.

End GreedyFacts.

Section Greedy.
Import Vocabulary Terms BoxFacts WrapFacts GreedyFacts.
Import PyText.

(** X9.  The wrapping of [print_answer] is greedy: of two lines printed
    one after the other, the second starts with a word that had no room on
    the first (the first, that word and a space together are longer than
    [width - 6] = 74 characters); and a printed line is at most 74
    characters long, unless it holds a single word: one run of characters
    without whitespace, followed by its space. *)
Theorem wrap_is_greedy (line : pystr) :
  adjacent no_room (UI.wrap line)
  /\ Forall (fun l => length l <= 74
                      \/ exists w, word w /\ l = w ++ [SPACE])
            (UI.wrap line).
Proof.
  unfold UI.wrap.
  destruct (wrap_loop_greedy (split line) [] (split_words line))
    as [_ Hadj].
  pose proof (wrap_loop_short (split line) [] (split_words line)
                (or_introl (Nat.le_0_l _))) as Hshort.
  cbn [map concat] in Hadj.
  destruct (UI.wrap_loop [] (split line)) as [printed left].
  cbn [fst snd] in *.
  destruct left as [|c left]; cbn [truthy].
  - rewrite app_nil_r. split.
    + apply (adjacent_app_l _ _ _ _ Hadj).
    + apply Forall_app in Hshort. apply Hshort.
  - split; [exact Hadj | exact Hshort].
Qed.

End Greedy.

(** ** AgentDemo.run *)

Module DemoFacts.
Import Spinner Vocabulary Terms SpinnerFacts ScopeFacts.

Lemma lstrip_blank (s : pystr) :
  Forall (fun c => PyText.isspace c = true) s -> PyText.lstrip s = [].
Proof.
  induction 1 as [|c s Hc _ IH]; [reflexivity|].
  cbn [PyText.lstrip]. rewrite Hc. exact IH.
Qed.

Lemma strip_blank (s : pystr) :
  Forall (fun c => PyText.isspace c = true) s -> PyText.strip s = [].
Proof.
  intros H. unfold PyText.strip. rewrite (lstrip_blank s H). reflexivity.
Qed.

(** [wait_with_progress] when the sleep returns or raises an instance of
    [Exception]: the scope returns with the spinner stopped. *)
Lemma wait_handled (lg : Logger.t) (nap p : nat) (sleep : outcome unit)
  (out : list event) :
  6 <= p -> handled sleep = true ->
  exists lg' w,
    Logger.progress lg (py "Initializing system...") (py "System ready!")
      {| steps := [Do (Elapse nap)]; completion := sleep;
         block_str_raises := None |} p out
    = Some (lg', w, sleep)
    /\ running (spinner w) = false.
Proof.
  intros Hp Hh. unfold Logger.progress, UI.progress.
  cbn [steps completion block_str_raises describe].
  destruct sleep as [[]|e]; cbn [handled] in Hh; [|rewrite Hh].
  - destruct (scope_exit p (success_msg (py "Initializing system...")
                                        (py "System ready!"))
                CHECK Colors.GREEN (py "Initializing system...") out
                [Do (Elapse nap)] Hp) as (w3 & -> & Hr & _).
    eexists. exists w3. split; [reflexivity | exact Hr].
  - destruct (scope_exit p (FAILED ++ str e) CROSS Colors.RED
                (py "Initializing system...") out
                [Do (Elapse nap)] Hp) as (w3 & -> & Hr & _).
    eexists. exists w3. split; [reflexivity | exact Hr].
Qed.

(** ... and when it raises anything else: the spinner is left running. *)
Lemma wait_unhandled (lg : Logger.t) (nap p : nat) (e : exn)
  (out : list event) :
  is_Exception e = false ->
  exists lg' w,
    Logger.progress lg (py "Initializing system...") (py "System ready!")
      {| steps := [Do (Elapse nap)]; completion := Raise e;
         block_str_raises := None |} p out
    = Some (lg', w, Raise e)
    /\ running (spinner w) = true.
Proof.
  intros He. unfold Logger.progress, UI.progress.
  cbn [steps completion block_str_raises describe].
  rewrite He. eexists. eexists. split; [reflexivity|].
  destruct (run_steps_frame [Do (Elapse nap)]
              (start (fresh (py "Initializing system...") Colors.CYAN out)))
    as (_ & _ & Hr & _).
  exact Hr.
Qed.

Lemma stdout_emit3 (a b c : list event) (w : World) :
  stdout (emit c (emit b (emit a w))) = stdout w ++ a ++ b ++ c.
Proof.
  cbn [emit stdout]. rewrite <- !app_assoc. reflexivity.
Qed.

Lemma stdout_emit4 (a b c d : list event) (w : World) :
  stdout (emit d (emit c (emit b (emit a w))))
  = (stdout w ++ a) ++ b ++ c ++ d.
Proof.
  cbn [emit stdout]. rewrite <- !app_assoc. reflexivity.
Qed.

End DemoFacts.

Section Demo.
Import Spinner Vocabulary Terms SpinnerFacts ScopeFacts DemoFacts.

(** X10.  [AgentDemo.run] always comes to an end, and the last thing it
    prints is the goodbye.  An instance of [Exception] never leaves it: it
    ends raising only what [except Exception] does not catch.  The spinner
    of its progress scope is stopped when it ends, except when the sleep
    was interrupted by something that is no [Exception]: then it is still
    running. *)
Theorem demo_run_says_goodbye
  (isdigit isalnum : N -> bool)
  (a : AgentDemo.t) (nap : nat) (sleep : outcome unit)
  (inp : AgentDemo.input_result) (lag p : nat) (out : list event) :
  6 <= p ->
  exists w o,
    AgentDemo.run isdigit isalnum a nap sleep inp lag p out = Some (w, o)
    /\ (exists before, stdout w = before ++ AgentDemo.goodbye)
    /\ (forall e, o = Raise e -> is_Exception e = false)
    /\ running (spinner w) = negb (handled sleep).
Proof.
  intros Hp. unfold AgentDemo.run, AgentDemo.attempt.
  destruct (handled sleep) eqn:Hh.
  - destruct (wait_handled (AgentDemo.logger a) nap p sleep
                (out ++ AgentDemo.greet_user) Hp Hh) as (lg' & w & -> & Hr).
    destruct sleep as [[]|e]; cbn [handled] in Hh.
    + unfold AgentDemo.get_user_input.
      destruct (AgentDemo.typed inp) as [user_input|err].
      * eexists. eexists. splits; [reflexivity | | discriminate | exact Hr].
        eexists. reflexivity.
      * destruct (AgentDemo.is_KeyboardInterrupt err).
        -- eexists. eexists.
           splits; [reflexivity | | discriminate | exact Hr].
           eexists. reflexivity.
        -- destruct (is_Exception (AgentDemo.base err)) eqn:He.
           ++ eexists. eexists.
              splits; [reflexivity | | discriminate | exact Hr].
              eexists. reflexivity.
           ++ rewrite He. eexists. eexists.
              splits; [reflexivity | | |].
              ** eexists. reflexivity.
              ** intros e' [= <-]. exact He.
              ** cbn [emit spinner].
                 destruct (elapse_frame lag
                             (emit (UI.print_info
                                      (py "I'm ready to listen to you!")
                                    ++ AgentDemo.prompted inp) w))
                   as (_ & _ & Hr' & _).
                 rewrite Hr'. exact Hr.
    + rewrite Hh. eexists. eexists.
      splits; [reflexivity | | discriminate | exact Hr].
      eexists. reflexivity.
  - destruct sleep as [[]|e]; cbn [handled] in Hh; [discriminate Hh|].
    destruct (wait_unhandled (AgentDemo.logger a) nap p e
                (out ++ AgentDemo.greet_user) Hh) as (lg' & w & -> & Hr).
    rewrite Hh. eexists. eexists. splits; [reflexivity | | |].
    + eexists. reflexivity.
    + intros e' [= <-]. exact Hh.
    + cbn [emit spinner].
      destruct (elapse_frame lag w) as (_ & _ & Hr' & _).
      rewrite Hr'. exact Hr.
Qed.

Lemma demo_run_says_goodbye_witness :
  exists w o,
    AgentDemo.run ascii_isdigit ascii_isalnum AgentDemo.init 20
                  (Raise keyboard_interrupt) ctrl_c 3 6 []
    = Some (w, o)
    /\ (exists before, stdout w = before ++ AgentDemo.goodbye)
    /\ (forall e, o = Raise e -> is_Exception e = false)
    /\ running (spinner w) = negb (handled (@Raise unit keyboard_interrupt)).
Proof.
  apply (demo_run_says_goodbye ascii_isdigit ascii_isalnum AgentDemo.init 20
           (Raise keyboard_interrupt) ctrl_c 3 6 [] (le_n 6)).
Defined.

(** X11.  When the sleep returns and [input()] brings nothing to echo (a
    line of whitespace, a [KeyboardInterrupt], or an instance of
    [Exception]), [AgentDemo.run] returns, and ends its output with the
    warning that no input was received, the closing information and the
    goodbye: no answer box is printed. *)
Theorem demo_run_without_input
  (isdigit isalnum : N -> bool)
  (a : AgentDemo.t) (nap : nat) (inp : AgentDemo.input_result)
  (lag p : nat) (out : list event) :
  6 <= p -> nothing_typed inp ->
  exists w before,
    AgentDemo.run isdigit isalnum a nap (Return tt) inp lag p out
    = Some (w, Return tt)
    /\ stdout w
       = before
         ++ UI.print_warning (py "No input received or input was empty")
         ++ UI.print_info (py "Agent2 interaction complete. Thank you!")
         ++ AgentDemo.goodbye.
Proof.
  intros Hp Hin. unfold AgentDemo.run, AgentDemo.attempt.
  destruct (wait_handled (AgentDemo.logger a) nap p (Return tt)
              (out ++ AgentDemo.greet_user) Hp eq_refl)
    as (lg' & w & -> & _).
  unfold AgentDemo.get_user_input, nothing_typed in *.
  assert (Hecho : forall s, Forall (fun c => PyText.isspace c = true) s ->
            AgentDemo.echo_user_input isdigit isalnum s
            = UI.print_warning (py "No input received or input was empty")).
  { intros s Hs. unfold AgentDemo.echo_user_input.
    rewrite (strip_blank _ Hs). reflexivity. }
  destruct (AgentDemo.typed inp) as [user_input|err].
  - rewrite (Hecho _ Hin). eexists. eexists. split; [reflexivity|].
    apply stdout_emit4.
  - destruct (AgentDemo.is_KeyboardInterrupt err).
    + rewrite (Hecho [] (Forall_nil _)).
      eexists. eexists. split; [reflexivity|]. apply stdout_emit4.
    + destruct Hin as [Hki|He]; [discriminate Hki|].
      rewrite He, (Hecho [] (Forall_nil _)).
      eexists. eexists. split; [reflexivity|]. apply stdout_emit4.
Qed.

Lemma demo_run_without_input_witness :
  exists w before,
    AgentDemo.run ascii_isdigit ascii_isalnum AgentDemo.init 20 (Return tt)
                  ctrl_c 3 6 []
    = Some (w, Return tt)
    /\ stdout w
       = before
         ++ UI.print_warning (py "No input received or input was empty")
         ++ UI.print_info (py "Agent2 interaction complete. Thank you!")
         ++ AgentDemo.goodbye.
Proof.
  apply (demo_run_without_input ascii_isdigit ascii_isalnum AgentDemo.init
           20 ctrl_c 3 6 [] (le_n 6)).
  left. reflexivity.
Defined.

End Demo.

(** ** More worked examples *)

Section MoreExamples.
Import Vocabulary Terms.

(** A word of 76 characters is printed whole, on a row one character
    wider than the box. *)
Example long_word_overflows :
  map (@length N) (UI.answer_inners long_word) = [79].
Proof. reflexivity. Qed.

(** Two lines, an empty line between them: three rows. *)
Example answer_rows :
  UI.answer_inners (py "to be" ++ [LF; LF] ++ py "or not")
  = [[SPACE] ++ py "to be " ++ times SPACE 70 ++ [SPACE];
     times SPACE 78;
     [SPACE] ++ py "or not " ++ times SPACE 69 ++ [SPACE]].
Proof. reflexivity. Qed.

(** [str.split()], [str.split(sep)] and [str.strip()]. *)
Example splitting :
  PyText.split (py "  to   be ") = [py "to"; py "be"]
  /\ PyText.split_on LF (py "a" ++ [LF; LF] ++ py "b" ++ [LF])
     = [py "a"; []; py "b"; []]
  /\ PyText.split_on LF [] = [[]]
  /\ PyText.strip (py "  to be  ") = py "to be"
  /\ PyText.str_of_nat 120 = py "120".
Proof. repeat split; reflexivity. Qed.

End MoreExamples.
